(** * rebirth-http: interceptor chain and declarative request assembly

    A shallow embedding of [src/rebirth-http.ts], the sources written
    against [HttpClient], together with the properties of its interceptor
    pipeline ([RebirthHttpProvider]) and of the decorators that assemble a
    request ([paramBuilder], [methodBuilder]).  The query and header blocks
    of the earlier variant, written against [@angular/http], are embedded
    next to them in [Legacy].

    JavaScript functions that may have side effects are state transformers
    over a world [W]; arrays live in a store and are handled by reference,
    because [Array.prototype.reverse] works in place; the classes of the
    Angular packages that the sources call are modelled after their
    documented contract. *)

From Stdlib Require Import ZArith String Ascii List Bool Lia DecimalString.
From stdpp Require Import base option list strings gmap.
Import ListNotations.

Local Open Scope string_scope.
Local Open Scope list_scope.
Set Warnings "-register-all".

(** ** JavaScript values *)

Module Js.

(** The values a decorated method can receive as a call argument.  Numbers
    are the integral ones, printed in decimal.  A [Date] carries its time
    value, [None] being the invalid date whose time value is [NaN].  An
    object lists its own enumerable properties in [for ... in] order. *)
Inductive JsValue : Type :=
| VUndefined
| VNull
| VBool (b : bool)
| VNum (n : Z)
| VStr (s : string)
| VDate (t : option Z)
| VArray (items : list JsValue)
| VObject (props : list (string * JsValue)).

Definition typeof (v : JsValue) : string :=
  match v with
  | VUndefined => "undefined"
  | VNull => "object"
  | VBool _ => "boolean"
  | VNum _ => "number"
  | VStr _ => "string"
  | VDate _ | VArray _ | VObject _ => "object"
  end.

Definition is_null (v : JsValue) : bool :=
  match v with VNull => true | _ => false end.

(** [function isObject(value)]: [value !== null && typeof value === 'object'] *)
Definition isObject (value : JsValue) : bool :=
  negb (is_null value) && String.eqb (typeof value) "object".

(** [function isUndefined(value)]: [typeof value === 'undefined'] *)
Definition isUndefined (value : JsValue) : bool :=
  String.eqb (typeof value) "undefined".

(** [function isEmpty(value)]: [typeof value === 'undefined' || value === null] *)
Definition isEmpty (value : JsValue) : bool :=
  String.eqb (typeof value) "undefined" || is_null value.

Definition instanceof_Date (v : JsValue) : bool :=
  match v with VDate _ => true | _ => false end.

Definition Array_isArray (v : JsValue) : bool :=
  match v with VArray _ => true | _ => false end.

(** [Number.prototype.toString] on an integral value. *)
Definition Number_toString (n : Z) : string :=
  NilZero.string_of_int (Z.to_int n).

(** [date.getTime().toString()] *)
Definition getTime_toString (t : option Z) : string :=
  match t with
  | Some ms => Number_toString ms
  | None => "NaN"
  end.

Section ToString.

(** [Date.prototype.toString] prints in the host's time zone. *)
Variable Date_toString : option Z -> string.

(** The string conversion behind [value.toString()] and [join]. *)
Fixpoint ToString (v : JsValue) : string :=
  match v with
  | VUndefined => "undefined"
  | VNull => "null"
  | VBool true => "true"
  | VBool false => "false"
  | VNum n => Number_toString n
  | VStr s => s
  | VDate t => Date_toString t
  | VArray items =>
      String.concat ","
        (List.map (fun item =>
                     match item with
                     | VUndefined | VNull => ""
                     | _ => ToString item
                     end) items)
  | VObject _ => "[object Object]"
  end.

(** [array.join(',')]: [undefined] and [null] elements print as nothing. *)
Definition Array_join (items : list JsValue) : string :=
  ToString (VArray items).

End ToString.

(** [args[i]]: reading past the end of the argument list gives [undefined]. *)
Definition arg (args : list JsValue) (i : nat) : JsValue :=
  nth i args VUndefined.

End Js.
Import Js.

(** ** The classes of [@angular/common/http] used by the sources *)

Module Http.

Definition lower_ascii (c : ascii) : ascii :=
  let n := nat_of_ascii c in
  if Nat.leb 65 n && Nat.leb n 90 then ascii_of_nat (n + 32) else c.

(** [String.prototype.toLowerCase] on header names (ASCII letters). *)
Fixpoint toLowerCase (s : string) : string :=
  match s with
  | EmptyString => EmptyString
  | String c rest => String (lower_ascii c) (toLowerCase rest)
  end.

(** [HttpHeaders]: an immutable map from the lower-cased header name to the
    list of its values; [set] and [append] return a new instance.  A header
    value of type [string | string[]] is the list of its strings, a lone
    string being a one-element list. *)
Record HttpHeaders : Type := { header_values : gmap string (list string) }.

Definition HttpHeaders_empty : HttpHeaders := {| header_values := ∅ |}.

(** [headers.getAll(name)] *)
Definition HttpHeaders_getAll (h : HttpHeaders) (name : string)
  : option (list string) :=
  header_values h !! toLowerCase name.

(** [headers.set(name, value)]: the values of [name] are replaced. *)
Definition HttpHeaders_set (h : HttpHeaders) (name : string)
    (value : list string) : HttpHeaders :=
  match value with
  | [] => h
  | _ => {| header_values := <[toLowerCase name := value]> (header_values h) |}
  end.

(** [headers.append(name, value)]: [value] is added after the values that
    [name] already has. *)
Definition HttpHeaders_append (h : HttpHeaders) (name : string)
    (value : list string) : HttpHeaders :=
  match value with
  | [] => h
  | _ =>
      let base := default [] (header_values h !! toLowerCase name) in
      {| header_values := <[toLowerCase name := base ++ value]> (header_values h) |}
  end.

(** [new HttpHeaders(obj)]; [obj] may be [null]. *)
Definition HttpHeaders_new (init : option (list (string * list string)))
  : HttpHeaders :=
  match init with
  | None => HttpHeaders_empty
  | Some props =>
      fold_left (fun h '(name, values) =>
                   match values with
                   | [] => h
                   | _ => {| header_values :=
                               <[toLowerCase name := values]> (header_values h) |}
                   end) props HttpHeaders_empty
  end.

(** [HttpParams]: an immutable, insertion-ordered map from a parameter name
    to its values.  The name is whatever the caller passes, [None] standing
    for [undefined]. *)
Record HttpParams : Type :=
  { param_entries : list (option string * list JsValue) }.

Definition HttpParams_new : HttpParams := {| param_entries := [] |}.

Fixpoint entries_set (param : option string) (values : list JsValue)
    (l : list (option string * list JsValue))
  : list (option string * list JsValue) :=
  match l with
  | [] => [(param, values)]
  | (k, vs) :: rest =>
      if decide (k = param) then (k, values) :: rest
      else (k, vs) :: entries_set param values rest
  end.

(** [params.set(param, value)]: a new instance in which [param] has the
    single value [value]. *)
Definition HttpParams_set (ps : HttpParams) (param : option string)
    (value : JsValue) : HttpParams :=
  {| param_entries := entries_set param [value] (param_entries ps) |}.

Fixpoint entries_get (param : option string)
    (l : list (option string * list JsValue)) : option (list JsValue) :=
  match l with
  | [] => None
  | (k, vs) :: rest =>
      if decide (k = param) then Some vs else entries_get param rest
  end.

(** [params.getAll(param)] *)
Definition HttpParams_getAll (ps : HttpParams) (param : option string)
  : option (list JsValue) :=
  entries_get param (param_entries ps).

(** [params.keys()] *)
Definition HttpParams_keys (ps : HttpParams) : list (option string) :=
  List.map fst (param_entries ps).

Record HttpRequest : Type :=
  { method : string;
    url : string;
    headers : HttpHeaders;
    params : HttpParams;
    body : JsValue }.

(** [request.clone({ url })] *)
Definition clone_url (request : HttpRequest) (u : string) : HttpRequest :=
  {| method := method request; url := u; headers := headers request;
     params := params request; body := body request |}.

(** [request.clone({ setHeaders })]: every name of [setHeaders] is [set] on
    the headers of the request. *)
Definition clone_setHeaders (request : HttpRequest)
    (setHeaders : list (string * list string)) : HttpRequest :=
  {| method := method request; url := url request;
     headers := fold_left (fun h '(name, value) => HttpHeaders_set h name value)
                          setHeaders (headers request);
     params := params request; body := body request |}.

Record HttpResponse : Type :=
  { status : Z;
    response_url : string;
    response_body : JsValue }.

(** [response.ok]: the status is in the 2xx range. *)
Definition ok (r : HttpResponse) : bool :=
  Z.leb 200 (status r) && Z.ltb (status r) 300.

(** [HttpEvent<any>] *)
Inductive HttpEvent : Type :=
| HttpSentEvent
| HttpHeaderResponse (status : Z)
| HttpProgressEvent (loaded : Z)
| HttpResponseEvent (r : HttpResponse)
| HttpUserEvent (v : JsValue).

End Http.
Import Http.

(** ** Effects *)

Inductive JsError : Type :=
| TypeError (message : string)
| Error (message : string).

(** How a call ends: with a value, or with a thrown error. *)
Inductive Completion (A : Type) : Type :=
| Normal (a : A)
| Throw (e : JsError).
Arguments Normal {A} a.
Arguments Throw {A} e.

(** What the browser global [event] ([window.event]) holds: nothing, the DOM
    event being dispatched, or a value that a script stored there. *)
Inductive WindowEvent : Type :=
| NoEvent
| DomEvent (type : string)
| Assigned (e : HttpEvent).

(** [x instanceof HttpResponse] on the global *)
Definition instanceof_HttpResponse (x : WindowEvent) : bool :=
  match x with
  | Assigned (HttpResponseEvent _) => true
  | _ => false
  end.

(** [x.ok] on a global that is an [HttpResponse] *)
Definition WindowEvent_ok (x : WindowEvent) : bool :=
  match x with
  | Assigned (HttpResponseEvent r) => ok r
  | _ => false
  end.

(** [s.replace(/\/$/, "")]: one slash at the end of [s] is removed. *)
Fixpoint replace_trailing_slash (s : string) : string :=
  match s with
  | EmptyString => EmptyString
  | String c EmptyString => if Ascii.eqb c "/" then EmptyString else s
  | String c rest => String c (replace_trailing_slash rest)
  end.

(** [s.replace(/^\//, "")]: one slash at the start of [s] is removed. *)
Definition replace_leading_slash (s : string) : string :=
  match s with
  | String c rest => if Ascii.eqb c "/" then rest else s
  | EmptyString => EmptyString
  end.

(** [/^https?:/.test(s)] *)
Definition test_http_prefix (s : string) : bool :=
  String.prefix "http:" s || String.prefix "https:" s.

(** A regular expression is used through [test] only (no [g] or [y] flag,
    so that [test] keeps no state). *)
Definition RegExp : Type := string -> bool.

(** ** RebirthHttpProvider *)

Section Provider.

(** The state that JavaScript callbacks can read and write. *)
Variable W : Type.

(** The global [event] as the running code finds it. *)
Variable event : W -> WindowEvent.

(** A variable captured by a closure: a cell of the world. *)
Record Captured (A : Type) : Type :=
  { read : W -> A;
    assign : A -> W -> W }.
Arguments read {A} c w.
Arguments assign {A} c a w.

(** [interface RebirthHttpInterceptor]: both members are optional; a
    member returns a value or nothing ([None]: [undefined], [null],
    [void]). *)
Record RebirthHttpInterceptor : Type :=
  { request : option (HttpRequest -> W -> option HttpRequest * W);
    response : option (HttpEvent -> option HttpRequest -> W ->
                       option HttpEvent * W) }.

(** Arrays are objects: the store maps a reference to the elements. *)
Record Store : Type :=
  { arrays : gmap positive (list RebirthHttpInterceptor);
    world : W }.

Definition Eff (A : Type) : Type := Store -> Completion A * Store.

Definition ret {A} (a : A) : Eff A := fun m => (Normal a, m).

Definition throw {A} (e : JsError) : Eff A := fun m => (Throw e, m).

Definition bind {A B} (c : Eff A) (k : A -> Eff B) : Eff B :=
  fun m =>
    match c m with
    | (Normal a, m') => k a m'
    | (Throw e, m') => (Throw e, m')
    end.

(** Calling a JavaScript function. *)
Definition call {A B} (f : A -> W -> B * W) (a : A) : Eff B :=
  fun m =>
    let (b, w) := f a (world m) in
    (Normal b, {| arrays := arrays m; world := w |}).

Notation "'let*' x ':=' c 'in' k" := (bind c (fun x => k))
  (at level 10, x name, c at level 100, k at level 200).

(** [a || b] on an optional object *)
Definition or_else {A} (a : option A) (b : A) : A :=
  match a with
  | Some x => x
  | None => b
  end.

Definition elements (m : Store) (a : positive) : list RebirthHttpInterceptor :=
  default [] (arrays m !! a).

(** [[]]: a new array. *)
Definition Array_new (items : list RebirthHttpInterceptor) : Eff positive :=
  fun m =>
    let a := fresh (dom (arrays m)) in
    (Normal a, {| arrays := <[a := items]> (arrays m); world := world m |}).

(** [a.push(x)] *)
Definition Array_push (a : positive) (x : RebirthHttpInterceptor) : Eff unit :=
  fun m =>
    (Normal tt, {| arrays := <[a := elements m a ++ [x]]> (arrays m);
                   world := world m |}).

(** [a.filter(p)]: the elements that pass go to a new array. *)
Definition Array_filter (p : RebirthHttpInterceptor -> bool) (a : positive)
  : Eff positive :=
  fun m => Array_new (List.filter p (elements m a)) m.

(** [a.reverse()]: the array itself is reversed, and returned. *)
Definition Array_reverse (a : positive) : Eff positive :=
  fun m =>
    (Normal a, {| arrays := <[a := rev (elements m a)]> (arrays m);
                  world := world m |}).

Fixpoint reduce_list {A} (f : A -> RebirthHttpInterceptor -> Eff A)
    (items : list RebirthHttpInterceptor) (acc : A) : Eff A :=
  match items with
  | [] => ret acc
  | item :: rest => let* acc' := f acc item in reduce_list f rest acc'
  end.

(** [a.reduce(f, init)] *)
Definition Array_reduce {A} (f : A -> RebirthHttpInterceptor -> Eff A)
    (a : positive) (init : A) : Eff A :=
  fun m => reduce_list f (elements m a) init m.

(** [!!f] for an optional member *)
Definition defined {A} (f : option A) : bool :=
  match f with
  | Some _ => true
  | None => false
  end.

(** [class RebirthHttpProvider]: the field holds a reference. *)
Record RebirthHttpProvider : Type := { interceptors : positive }.

(** [constructor()] *)
Definition RebirthHttpProvider_new : Eff RebirthHttpProvider :=
  let* a := Array_new [] in
  ret {| interceptors := a |}.

Definition getInterceptors (this : RebirthHttpProvider) : positive :=
  interceptors this.

Definition addInterceptor (this : RebirthHttpProvider)
    (interceptor : RebirthHttpInterceptor) : Eff RebirthHttpProvider :=
  let* _ := Array_push (interceptors this) interceptor in
  ret this.

Definition addRequestInterceptor (this : RebirthHttpProvider)
    (interceptor : HttpRequest -> W -> option HttpRequest * W)
  : Eff RebirthHttpProvider :=
  addInterceptor this
    {| request := Some (fun request w =>
                          let (r, w') := interceptor request w in
                          (Some (or_else r request), w'));
       response := None |}.

Definition addResponseInterceptor (this : RebirthHttpProvider)
    (interceptor : HttpEvent -> W -> option HttpEvent * W)
  : Eff RebirthHttpProvider :=
  addInterceptor this
    {| request := None;
       response := Some (fun response _ w =>
                           let (r, w') := interceptor response w in
                           (Some (or_else r response), w')) |}.

(** The function that [addResponseErrorInterceptor] registers.  Its test
    reads [event], which the sources bind nowhere: it is the global. *)
Definition responseError (interceptor : HttpEvent -> W -> option HttpEvent * W)
    (response : HttpEvent) (_ : option HttpRequest) : W -> option HttpEvent * W :=
  fun w =>
    if instanceof_HttpResponse (event w) && negb (WindowEvent_ok (event w))
    then
      let (r, w') := interceptor response w in
      (Some (or_else r response), w')
    else (None, w).

Definition addResponseErrorInterceptor (this : RebirthHttpProvider)
    (interceptor : HttpEvent -> W -> option HttpEvent * W)
  : Eff RebirthHttpProvider :=
  addInterceptor this
    {| request := None;
       response := Some (responseError interceptor) |}.

(** The function given to [reduce] in [handleRequest]. *)
Definition request_step (req : HttpRequest) (item : RebirthHttpInterceptor)
  : Eff HttpRequest :=
  match request item with
  | Some f => let* r := call f req in ret (or_else r req)
  | None => throw (TypeError "item.request is not a function")
  end.

Definition handleRequest (this : RebirthHttpProvider) (req : HttpRequest)
  : Eff HttpRequest :=
  let* filtered := Array_filter (fun item => defined (request item))
                                (interceptors this) in
  Array_reduce request_step filtered req.

(** The function given to [reduce] in [handleResponse]; [response0] and
    [request0] are the parameters [response] and [request] of
    [handleResponse]. *)
Definition response_step (response0 : HttpEvent) (request0 : option HttpRequest)
    (httpEvent : HttpEvent) (item : RebirthHttpInterceptor) : Eff HttpEvent :=
  match response item with
  | Some f => let* r := call (fun e => f e request0) httpEvent in
              ret (or_else r response0)
  | None => throw (TypeError "item.response is not a function")
  end.

Definition handleResponse (this : RebirthHttpProvider) (response0 : HttpEvent)
    (request0 : option HttpRequest) : Eff HttpEvent :=
  let* filtered := Array_filter (fun item => defined (response item))
                                (interceptors this) in
  let* reversed := Array_reverse filtered in
  Array_reduce (response_step response0 request0) reversed response0.

(** The function that [baseUrl] registers.  [host] is the parameter of
    [baseUrl], captured by the closure and assigned to on each rewrite. *)
Definition baseUrl_request (host : Captured string) (excludes : list RegExp)
    (request : HttpRequest) : W -> option HttpRequest * W :=
  fun w =>
    if test_http_prefix (url request) then (Some request, w)
    else
      let excludeUrl := existsb (fun t => t (url request)) excludes in
      if excludeUrl then (Some request, w)
      else
        let w := assign host (replace_trailing_slash (read host w)) w in
        let url' := replace_leading_slash (url request) in
        (Some (clone_url request (read host w ++ "/" ++ url')), w).

(** [baseUrl(host, excludes = [])]; [cell] is where the parameter [host]
    of this call is kept. *)
Definition baseUrl (this : RebirthHttpProvider) (cell : Captured string)
    (host : string) (excludes : list RegExp) : Eff RebirthHttpProvider :=
  fun m =>
    let m := {| arrays := arrays m; world := assign cell host (world m) |} in
    (let* _ := Array_push (interceptors this)
            {| request := Some (baseUrl_request cell excludes);
               response := None |} in
     ret this) m.

(** [headers(headers = {})] *)
Definition headers_request (headers : list (string * list string))
    (request : HttpRequest) : W -> option HttpRequest * W :=
  fun w => (Some (clone_setHeaders request headers), w).

Definition provider_headers (this : RebirthHttpProvider)
    (headers : list (string * list string)) : Eff RebirthHttpProvider :=
  addInterceptor this
    {| request := Some (headers_request headers);
       response := None |}.

End Provider.

Arguments request {W} r.
Arguments response {W} r.
Arguments read {W A} c w.
Arguments assign {W A} c a w.
Arguments arrays {W} s.
Arguments world {W} s.
Arguments ret {W A} a m.
Arguments bind {W A B} c k m.
Arguments or_else {A} a b.
Arguments elements {W} m a.
Arguments request_step {W} req item m.
Arguments response_step {W} response0 request0 httpEvent item m.
Arguments reduce_list {W A} f items acc m.
Arguments call {W A B} f a m.
Arguments defined {A} f.
Arguments handleRequest {W} this req m.
Arguments handleResponse {W} this response0 request0 m.
Arguments addInterceptor {W} this interceptor m.
Arguments responseError {W} event interceptor response _ w.
Arguments baseUrl_request {W} host excludes request w.
Arguments headers_request {W} headers request w.

(** ** Parameter decorators *)

(** The object that a parameter decorator records. *)
Record ParamObj : Type :=
  { key : option string;
    parameterIndex : nat }.

(** [!key] for the optional string [key]: absent or empty. *)
Definition no_key (key : option string) : bool :=
  match key with
  | None => true
  | Some k => String.eqb k ""
  end.

(** The decorator that [paramBuilder(paramName, optional)(key)] returns,
    acting on the metadata properties of [target]. *)
Definition paramDecorator (paramName : string) (key : option string)
    (target : gmap string (list ParamObj)) (propertyKey : string)
    (parameterIndex : nat) : gmap string (list ParamObj) :=
  let metadataKey := (propertyKey ++ "_" ++ paramName ++ "_parameters")%string in
  let paramObj := {| key := key; parameterIndex := parameterIndex |} in
  match target !! metadataKey with
  | Some l => <[metadataKey := l ++ [paramObj]]> target
  | None => <[metadataKey := [paramObj]]> target
  end.

(** [function paramBuilder(paramName, optional = false)] applied to [key] *)
Definition paramBuilder (paramName : string) (optional : bool)
    (key : option string)
  : Completion (gmap string (list ParamObj) -> string -> nat ->
                gmap string (list ParamObj)) :=
  if negb optional && no_key key
  then Throw (Error (paramName ++ " Key is required!")%string)
  else Normal (paramDecorator paramName key).

Definition Path := paramBuilder "Path" false.

Definition Query := paramBuilder "Query" true.

Definition Body := paramBuilder "Body" false (Some "Body").

Definition Header := paramBuilder "Header" false.

(** The four roles a parameter can be declared in, each with the builder
    the sources give it. *)
Inductive Role : Type := RPath | RQuery | RBody | RHeader.

Definition role_builder (r : Role) :=
  match r with
  | RPath => paramBuilder "Path" false
  | RQuery => paramBuilder "Query" true
  | RBody => paramBuilder "Body" false
  | RHeader => paramBuilder "Header" false
  end.

Definition succeeds {A} (c : Completion A) : Prop :=
  exists a, c = Normal a.

(** ** Method decorators: the query and header blocks of [methodBuilder] *)

Definition date_time (v : JsValue) : option Z :=
  match v with VDate t => t | _ => None end.

Definition array_items (v : JsValue) : list JsValue :=
  match v with VArray items => items | _ => [] end.

Definition own_props (v : JsValue) : list (string * JsValue) :=
  match v with VObject props => props | _ => [] end.

Section MethodBuilder.

Variable Date_toString : option Z -> string.

(** The function given to [reduce] in the [// Query] block. *)
Definition query_step (args : list JsValue) (ps : HttpParams) (p : ParamObj)
  : HttpParams :=
  let key := key p in
  let value := arg args (parameterIndex p) in
  let result := ps in
  if instanceof_Date value then
    HttpParams_set ps key (VStr (getTime_toString (date_time value)))
  else if Array_isArray value then
    HttpParams_set ps key (VStr (Array_join Date_toString (array_items value)))
  else if isObject value then
    fold_left (fun result '(k, v) => HttpParams_set ps (Some k) v)
              (own_props value) result
  else if negb (isEmpty value) then
    HttpParams_set ps key (VStr (ToString Date_toString value))
  else
    HttpParams_set ps key (VStr "").

(** The [// Query] block; [pQuery] is [undefined] when the method has no
    [Query] parameter. *)
Definition methodBuilder_params (pQuery : option (list ParamObj))
    (args : list JsValue) : HttpParams :=
  let params := HttpParams_new in
  match pQuery with
  | Some pQuery =>
      fold_left (query_step args)
        (List.filter (fun p => negb (isUndefined (arg args (parameterIndex p))))
                     pQuery)
        params
  | None => params
  end.

(** An argument used as a header value. *)
Definition header_value (v : JsValue) : list string :=
  match v with
  | VStr s => [s]
  | VArray items => List.map (ToString Date_toString) items
  | _ => [ToString Date_toString v]
  end.

(** The [// Headers] block.  The two loops run over the [Headers]
    annotation of the method and over its [Header] parameters; the body of
    each is the expression statement [headers.append(...)], which leaves
    the variable [headers] as it is. *)
Definition methodBuilder_headers
    (getDefaultHeaders : option (list (string * list string)))
    (descriptor_headers : option (list (string * list string)))
    (pHeader : option (list ParamObj)) (args : list JsValue) : HttpHeaders :=
  let headers := HttpHeaders_new getDefaultHeaders in
  let headers :=
    fold_left (fun headers '(k, v) =>
                 let _ := HttpHeaders_append headers k v in
                 headers)
              (default [] descriptor_headers) headers in
  let headers :=
    fold_left (fun headers p =>
                 let _ := HttpHeaders_append headers (default "undefined" (key p))
                            (header_value (arg args (parameterIndex p))) in
                 headers)
              (default [] pHeader) headers in
  headers.

End MethodBuilder.

(** ** The chain as the specification words it *)

Section ChainSpec.

Context {W : Type}.

(** Request interceptors run in registration order, each on the
    descriptor the previous one left; one without a [request] function is
    skipped, one that returns nothing leaves the descriptor as it is. *)
Fixpoint request_chain (items : list (RebirthHttpInterceptor W))
    (acc : HttpRequest) (w : W) : HttpRequest * W :=
  match items with
  | [] => (acc, w)
  | item :: rest =>
      match request item with
      | None => request_chain rest acc w
      | Some f =>
          let (r, w') := f acc w in
          request_chain rest (match r with Some x => x | None => acc end) w'
      end
  end.

(** Response interceptors run in reverse registration order: those
    registered after [item] run before it.  One that returns nothing
    makes the accumulator the [original] response. *)
Fixpoint response_chain (original : HttpEvent) (request0 : option HttpRequest)
    (items : list (RebirthHttpInterceptor W)) (w : W) : HttpEvent * W :=
  match items with
  | [] => (original, w)
  | item :: later =>
      let (acc, w1) := response_chain original request0 later w in
      match response item with
      | None => (acc, w1)
      | Some f =>
          let (r, w2) := f acc request0 w1 in
          (match r with Some e => e | None => original end, w2)
      end
  end.

(** The same two chains as folds over the functions that are there: the
    [request] functions in registration order, the [response] functions in
    the reverse of it. *)
Definition request_fold (items : list (RebirthHttpInterceptor W))
    (req : HttpRequest) (w : W) : HttpRequest * W :=
  fold_left (fun (state : HttpRequest * W)
                 (f : HttpRequest -> W -> option HttpRequest * W) =>
               let (acc, w) := state in
               let (r, w') := f acc w in
               (match r with Some x => x | None => acc end, w'))
            (omap request items) (req, w).

Definition response_fold (original : HttpEvent) (request0 : option HttpRequest)
    (items : list (RebirthHttpInterceptor W)) (w : W) : HttpEvent * W :=
  fold_left (fun (state : HttpEvent * W)
                 (f : HttpEvent -> option HttpRequest -> W ->
                      option HttpEvent * W) =>
               let (acc, w) := state in
               let (r, w') := f acc request0 w in
               (match r with Some e => e | None => original end, w'))
            (rev (omap response items)) (original, w).

End ChainSpec.

(** ** The earlier variant of [methodBuilder]

    The second source file is the variant written against [@angular/http].
    Its provider folds, its [baseUrl] and its [paramBuilder] read as above;
    its query and header blocks work on the mutable [URLSearchParams] and
    [Headers] of that package, so that every call acts on the one object.
    Header values are strings here. *)

Module Legacy.

(** What [if (v)] and [v || w] test. *)
Definition truthy (v : JsValue) : bool :=
  match v with
  | VUndefined | VNull => false
  | VBool b => b
  | VNum n => negb (Z.eqb n 0)
  | VStr s => negb (String.eqb s "")
  | VDate _ | VArray _ | VObject _ => true
  end.

Fixpoint indexed (i : nat) (items : list JsValue) : list (string * JsValue) :=
  match items with
  | [] => []
  | x :: rest => (Number_toString (Z.of_nat i), x) :: indexed (S i) rest
  end.

(** The keys that [for (let k in value)] visits and [hasOwnProperty]
    accepts, with their values: the indices, for an array. *)
Definition own_entries (v : JsValue) : list (string * JsValue) :=
  match v with
  | VObject props => props
  | VArray items => indexed 0 items
  | _ => []
  end.

(** [URLSearchParams]: names and their values, in insertion order. *)
Record URLSearchParams : Type :=
  { paramsMap : list (string * list string) }.

Fixpoint paramsMap_set (param val : string) (l : list (string * list string))
  : list (string * list string) :=
  match l with
  | [] => [(param, [val])]
  | (k, vs) :: rest =>
      if String.eqb k param then (k, [val]) :: rest
      else (k, vs) :: paramsMap_set param val rest
  end.

(** [search.set(param, val)]: [param] has the one value [val] afterwards. *)
Definition URLSearchParams_set (search : URLSearchParams) (param val : string)
  : URLSearchParams :=
  {| paramsMap := paramsMap_set param val (paramsMap search) |}.

(** [Headers]: lower-cased names and their values. *)
Record Headers : Type := { _headers : gmap string (list string) }.

(** [headers.append(name, value)] *)
Definition Headers_append (h : Headers) (name value : string) : Headers :=
  {| _headers :=
       <[toLowerCase name :=
           default [] (_headers h !! toLowerCase name) ++ [value]]>
         (_headers h) |}.

(** [new Headers(obj)]; [obj] may be [null]. *)
Definition Headers_new (init : option (list (string * string))) : Headers :=
  fold_left (fun h '(name, value) =>
               Headers_append
                 {| _headers := delete (toLowerCase name) (_headers h) |}
                 name value)
            (default [] init) {| _headers := ∅ |}.

Section MethodBuilder.

Variable Date_toString : option Z -> string.

(** [encodeURIComponent], on a string. *)
Variable encodeURIComponent : string -> string.

(** The string that a key stands for when it is used as one. *)
Definition key_string (key : option string) : string :=
  default "undefined" key.

(** The function given to [forEach] in the [// Query] block; [search] is
    the object it writes to. *)
Definition search_step (args : list JsValue) (search : URLSearchParams)
    (p : ParamObj) : URLSearchParams :=
  let key := key p in
  let value := arg args (parameterIndex p) in
  if instanceof_Date value then
    URLSearchParams_set search (encodeURIComponent (key_string key))
      (encodeURIComponent (getTime_toString (date_time value)))
  else if isObject value then
    fold_left (fun search '(k, v) =>
                 URLSearchParams_set search (encodeURIComponent k)
                   (encodeURIComponent (ToString Date_toString v)))
              (own_entries value) search
  else
    URLSearchParams_set search (encodeURIComponent (key_string key))
      (encodeURIComponent
         (ToString Date_toString (if truthy value then value else VStr ""))).

(** The [// Query] block. *)
Definition methodBuilder_search (pQuery : option (list ParamObj))
    (args : list JsValue) : URLSearchParams :=
  let search := {| paramsMap := [] |} in
  match pQuery with
  | Some pQuery =>
      fold_left (search_step args)
        (List.filter (fun p => truthy (arg args (parameterIndex p))) pQuery)
        search
  | None => search
  end.

(** The [// Headers] block; [headers] is the object that [append] writes
    to. *)
Definition methodBuilder_headers
    (getDefaultHeaders descriptor_headers : option (list (string * string)))
    (pHeader : option (list ParamObj)) (args : list JsValue) : Headers :=
  let headers := Headers_new getDefaultHeaders in
  let headers :=
    fold_left (fun headers '(k, v) => Headers_append headers k v)
              (default [] descriptor_headers) headers in
  let headers :=
    fold_left (fun headers p =>
                 Headers_append headers (key_string (key p))
                   (ToString Date_toString (arg args (parameterIndex p))))
              (default [] pHeader) headers in
  headers.

End MethodBuilder.

End Legacy.

(** ** The request assembly as the specification words it *)

(** Headers in three stages, each adding its entries to the headers the
    stage before produced: class defaults, then the [Headers] annotation of
    the method, then the [Header] bindings of the call. *)
Definition staged_headers (Date_toString : option Z -> string)
    (getDefaultHeaders : option (list (string * list string)))
    (descriptor_headers : option (list (string * list string)))
    (pHeader : option (list ParamObj)) (args : list JsValue) : HttpHeaders :=
  let stage1 := HttpHeaders_new getDefaultHeaders in
  let stage2 :=
    fold_left (fun h '(k, v) => HttpHeaders_append h k v)
              (default [] descriptor_headers) stage1 in
  fold_left (fun h p =>
               HttpHeaders_append h (default "undefined" (key p))
                 (header_value Date_toString (arg args (parameterIndex p))))
            (default [] pHeader) stage2.

(** A plain object flattened: each of its own keys becomes a query
    parameter of its own. *)
Definition flattened (ps : HttpParams) (props : list (string * JsValue))
  : HttpParams :=
  fold_left (fun result '(k, v) => HttpParams_set result (Some k) v) props ps.

(** The names that a header object sets, as [HttpHeaders] compares them. *)
Definition lower_names (hs : list (string * list string)) : list string :=
  List.map (fun e => toLowerCase (fst e)) hs.

(** ** Sample data *)

Module Examples.

(** A world that records which callbacks ran, in call order. *)
Definition Trace : Type := list string.

Definition sample_request (u : string) : HttpRequest :=
  {| method := "GET"; url := u; headers := HttpHeaders_empty;
     params := HttpParams_new; body := VNull |}.

Definition sample_response (code : Z) : HttpEvent :=
  HttpResponseEvent
    {| status := code; response_url := "/users"; response_body := VNull |}.

(** A request function that appends [suffix] to the url. *)
Definition suffix_request (name suffix : string)
  : HttpRequest -> Trace -> option HttpRequest * Trace :=
  fun req w => (Some (clone_url req (url req ++ suffix)), w ++ [name]).

(** A request function that returns nothing. *)
Definition void_request (name : string)
  : HttpRequest -> Trace -> option HttpRequest * Trace :=
  fun req w => (None, w ++ [name]).

(** A response function that answers with an event of its own. *)
Definition tag_response (name : string)
  : HttpEvent -> option HttpRequest -> Trace -> option HttpEvent * Trace :=
  fun e _ w => (Some (HttpUserEvent (VStr name)), w ++ [name]).

(** A response function that returns nothing. *)
Definition void_response (name : string)
  : HttpEvent -> option HttpRequest -> Trace -> option HttpEvent * Trace :=
  fun e _ w => (None, w ++ [name]).

(** An error handler that records its call and returns nothing. *)
Definition record_error (name : string)
  : HttpEvent -> Trace -> option HttpEvent * Trace :=
  fun e w => (None, w ++ [name]).

Definition sample_items : list (RebirthHttpInterceptor Trace) :=
  [ {| request := Some (suffix_request "a" "/a");
       response := Some (void_response "a") |};
    {| request := None; response := None |};
    {| request := Some (void_request "b");
       response := Some (tag_response "b") |};
    {| request := Some (suffix_request "c" "/c"); response := None |} ].

Definition sample_provider : RebirthHttpProvider :=
  {| interceptors := 1%positive |}.

Definition sample_store : Store Trace :=
  {| arrays := {[ 1%positive := sample_items ]}; world := [] |}.

(** The world of a single closure: the cell is the world itself. *)
Definition host_cell : Captured string string :=
  {| read := fun w => w; assign := fun a _ => a |}.

(** The urls that come out when the provider has one [baseUrl(host)]
    interceptor and the requests for [urls] go through [handleRequest]
    one after the other. *)
Fixpoint send_all (this : RebirthHttpProvider) (urls : list string)
    (m : Store string) : list (Completion string) :=
  match urls with
  | [] => []
  | u :: rest =>
      let (r, m') := handleRequest this (sample_request u) m in
      match r with
      | Normal req => Normal (url req) :: send_all this rest m'
      | Throw e => [Throw e]
      end
  end.

Definition run_baseUrl (host : string) (urls : list string)
  : list (Completion string) :=
  match RebirthHttpProvider_new string {| arrays := ∅; world := "" |} with
  | (Normal this, m) =>
      match baseUrl string this host_cell host [] m with
      | (Normal this, m) => send_all this urls m
      | (Throw e, _) => [Throw e]
      end
  | (Throw e, _) => [Throw e]
  end.

Definition authorized_request : HttpRequest :=
  {| method := "GET"; url := "/users";
     headers := HttpHeaders_set HttpHeaders_empty "Authorization" ["Y"];
     params := HttpParams_new; body := VNull |}.

Definition no_zone : option Z -> string := fun _ => "".

End Examples.

(** ** The rest of the sources *)

(** The property of [target] that keeps the parameters of one role of one
    method: [`${propertyKey}_${paramName}_parameters`]. *)
Definition metadataKey (propertyKey paramName : string) : string :=
  (propertyKey ++ "_" ++ paramName ++ "_parameters")%string.

Definition role_name (r : Role) : string :=
  match r with
  | RPath => "Path"
  | RQuery => "Query"
  | RBody => "Body"
  | RHeader => "Header"
  end.

(** The interceptors that the three [add...Interceptor] methods build. *)
Definition request_item {W} (interceptor : HttpRequest -> W -> option HttpRequest * W)
  : RebirthHttpInterceptor W :=
  {| request := Some (fun request w =>
                        let (r, w') := interceptor request w in
                        (Some (or_else r request), w'));
     response := None |}.

Definition response_item {W} (interceptor : HttpEvent -> W -> option HttpEvent * W)
  : RebirthHttpInterceptor W :=
  {| request := None;
     response := Some (fun response _ w =>
                         let (r, w') := interceptor response w in
                         (Some (or_else r response), w')) |}.

Definition responseError_item {W} (event : W -> WindowEvent)
    (interceptor : HttpEvent -> W -> option HttpEvent * W)
  : RebirthHttpInterceptor W :=
  {| request := None;
     response := Some (responseError event interceptor) |}.

(** The interceptors that [baseUrl] and [headers] build. *)
Definition baseUrl_item {W} (cell : Captured W string) (excludes : list RegExp)
  : RebirthHttpInterceptor W :=
  {| request := Some (baseUrl_request cell excludes);
     response := None |}.

Definition headers_item {W} (headers : list (string * list string))
  : RebirthHttpInterceptor W :=
  {| request := Some (headers_request headers);
     response := None |}.

(** The response fold, started from any accumulator. *)
Definition response_fold_from {W} (original : HttpEvent)
    (request0 : option HttpRequest) (items : list (RebirthHttpInterceptor W))
    (start : HttpEvent * W) : HttpEvent * W :=
  fold_left (fun (state : HttpEvent * W)
                 (f : HttpEvent -> option HttpRequest -> W ->
                      option HttpEvent * W) =>
               let (acc, w) := state in
               let (r, w') := f acc request0 w in
               (match r with Some e => e | None => original end, w'))
            (rev (omap response items)) start.

(** A chain of functions in which one that returns nothing keeps the
    accumulator. *)
Definition compose_all {A W} (fns : list (A -> W -> option A * W))
    (start : A * W) : A * W :=
  fold_left (fun (state : A * W) (fn : A -> W -> option A * W) =>
               let (acc, w) := state in
               let (r, w') := fn acc w in
               (or_else r acc, w'))
            fns start.

(** *** RebirthHttpInterceptors *)

(** How an [Observable] of events ends when it does not complete. *)
Inductive Failure : Type :=
| HttpErrorResponse (status : Z)
| Thrown (e : JsError).

(** What a subscriber of an [Observable<HttpEvent>] receives: the events,
    in order, and the error notification if there is one. *)
Record Notifications : Type :=
  { emitted : list HttpEvent;
    failed : option Failure }.

(** [source.do(f)]: [f] is called on every event before the event is
    passed on, what [f] returns is dropped; an error that [f] throws
    becomes the error notification.  An error of the source passes by. *)
Fixpoint Observable_do {W} (f : HttpEvent -> Eff W HttpEvent)
    (events : list HttpEvent) (source_failed : option Failure) (m : Store W)
  : Notifications * Store W :=
  match events with
  | [] => ({| emitted := []; failed := source_failed |}, m)
  | e :: rest =>
      match f e m with
      | (Normal _, m') =>
          let (n, m'') := Observable_do f rest source_failed m' in
          ({| emitted := e :: emitted n; failed := failed n |}, m'')
      | (Throw x, m') =>
          ({| emitted := []; failed := Some (Thrown x) |}, m')
      end
  end.

(** [intercept(req, next)], subscribed to.  [next.handle] is the rest of
    the transport: it answers a request with its notifications. *)
Definition intercept {W} (rebirthHttpProvider : RebirthHttpProvider)
    (req : HttpRequest) (next : HttpRequest -> Notifications) (m : Store W)
  : Completion Notifications * Store W :=
  match handleRequest rebirthHttpProvider req m with
  | (Normal httpRequest, m1) =>
      let source := next httpRequest in
      let (n, m2) :=
        Observable_do
          (fun response => handleResponse rebirthHttpProvider response None)
          (emitted source) (failed source) m1 in
      (Normal n, m2)
  | (Throw e, m1) => (Throw e, m1)
  end.

(** *** RebirthHttp and its class decorators *)

(** What a client class answers to [getBaseUrl()] and
    [getDefaultHeaders()]. *)
Record RebirthHttp : Type :=
  { getBaseUrl : string;
    getDefaultHeaders : option (list (string * list string)) }.

(** [class RebirthHttp] itself. *)
Definition RebirthHttp_base : RebirthHttp :=
  {| getBaseUrl := ""; getDefaultHeaders := None |}.

(** [@BaseUrl(url)] *)
Definition BaseUrl (url : string) (target : RebirthHttp) : RebirthHttp :=
  {| getBaseUrl := url; getDefaultHeaders := getDefaultHeaders target |}.

(** [@DefaultHeaders(headers)] *)
Definition DefaultHeaders (headers : option (list (string * list string)))
    (target : RebirthHttp) : RebirthHttp :=
  {| getBaseUrl := getBaseUrl target; getDefaultHeaders := headers |}.

(** *** The path, the body and the url of a call *)

(** Strings stand for their UTF-8 bytes.  [encodeURIComponent] keeps the
    letters, the digits and [- _ . ! ~ * ' ( )], and writes every other
    byte as [%XX]. *)
Definition is_unreserved (c : ascii) : bool :=
  let n := nat_of_ascii c in
  (Nat.leb 48 n && Nat.leb n 57) || (Nat.leb 65 n && Nat.leb n 90) ||
  (Nat.leb 97 n && Nat.leb n 122) ||
  existsb (Ascii.eqb c) ["-"; "_"; "."; "!"; "~"; "*"; "'"; "("; ")"]%char.

Definition hex_digit (n : nat) : ascii :=
  nth n (list_ascii_of_string "0123456789ABCDEF") "0"%char.

Fixpoint encodeURIComponent (s : string) : string :=
  match s with
  | EmptyString => EmptyString
  | String c rest =>
      if is_unreserved c then String c (encodeURIComponent rest)
      else
        String "%"
          (String (hex_digit (nat_of_ascii c / 16))
             (String (hex_digit (nat_of_ascii c mod 16))
                (encodeURIComponent rest)))
  end.

Fixpoint skip (n : nat) (s : string) : string :=
  match n, s with
  | O, _ => s
  | S n', String _ rest => skip n' rest
  | S _, EmptyString => EmptyString
  end.

(** [s.replace(pattern, replacement)] for a string [pattern] and a
    [replacement] without [$]: the first occurrence is replaced. *)
Fixpoint replace_first (pattern replacement s : string) {struct s} : string :=
  if String.prefix pattern s
  then (replacement ++ skip (String.length pattern) s)%string
  else
    match s with
    | EmptyString => EmptyString
    | String c rest => String c (replace_first pattern replacement rest)
    end.

(** Whether [pattern] occurs in [s]. *)
Fixpoint occurs (pattern s : string) {struct s} : bool :=
  String.prefix pattern s ||
  match s with
  | EmptyString => false
  | String _ rest => occurs pattern rest
  end.

(** [`${key}`] for an optional key *)
Definition key_text (key : option string) : string :=
  default "undefined" key.

Section Call.

Variable Date_toString : option Z -> string.

(** The body of the loop of the [// Path] block. *)
Definition path_step (args : list JsValue) (resUrl : string) (p : ParamObj)
  : string :=
  replace_first (":" ++ key_text (key p))
    (encodeURIComponent (ToString Date_toString (arg args (parameterIndex p))))
    resUrl.

(** The [// Path] block. *)
Definition methodBuilder_path (pPath : option (list ParamObj))
    (args : list JsValue) (url : string) : string :=
  let resUrl := url in
  match pPath with
  | Some pPath => fold_left (path_step args) pPath resUrl
  | None => resUrl
  end.

(** The [// Body] block; reading [pBody[0].parameterIndex] on an empty
    array throws. *)
Definition methodBuilder_body (pBody : option (list ParamObj))
    (args : list JsValue) : Completion JsValue :=
  let body := VStr "" in
  match pBody with
  | Some (p :: _) => Normal (arg args (parameterIndex p))
  | Some [] =>
      Throw (TypeError "Cannot read property 'parameterIndex' of undefined")
  | None => Normal body
  end.

(** [requestUrl], from [this.getBaseUrl()] and the url after the path
    block. *)
Definition requestUrl (baseUrl resUrl : string) : string :=
  let host :=
    if negb (String.eqb baseUrl "")
    then (replace_trailing_slash baseUrl ++ "/")%string
    else "" in
  (host ++ replace_leading_slash resUrl)%string.

(** The [options] object. *)
Record RequestOptions : Type :=
  { options_body : JsValue;
    options_headers : HttpHeaders;
    observe : string;
    options_params : HttpParams;
    reportProgress : bool;
    responseType : JsValue;
    withCredentials : bool;
    options_extra : option JsValue }.

(** The arguments of [this.http.request(method, requestUrl, options)]. *)
Record HttpCall : Type :=
  { call_method : string;
    call_url : string;
    call_options : RequestOptions }.

(** What the method decorators leave on the descriptor; a member that
    was not set is [undefined]. *)
Record Descriptor : Type :=
  { descriptor_headers : option (list (string * list string));
    descriptor_extra : option JsValue }.

(** [@Headers(headersDef)] *)
Definition Headers (headersDef : option (list (string * list string)))
    (descriptor : Descriptor) : Descriptor :=
  {| descriptor_headers := headersDef;
     descriptor_extra := descriptor_extra descriptor |}.

(** [@Extra(extra)] *)
Definition Extra (extra : option JsValue) (descriptor : Descriptor)
  : Descriptor :=
  {| descriptor_headers := descriptor_headers descriptor;
     descriptor_extra := extra |}.

(** [methodBuilder(method)(url)(target, propertyKey, descriptor)]: the
    function that takes the place of the method.  The four parameter lists
    are read from [target] when the decorator runs; [descriptor] is read
    when the method is called.  [oldDescriptor] is the method as it was
    written: it is called first, and what it returns or throws is
    dropped. *)
Definition methodBuilder {W} (method url : string)
    (target : gmap string (list ParamObj)) (propertyKey : string)
    (oldDescriptor : list JsValue -> W -> Completion JsValue * W)
    (descriptor : Descriptor) (this : RebirthHttp) (args : list JsValue)
    (w : W) : Completion HttpCall * W :=
  let pPath := target !! metadataKey propertyKey "Path" in
  let pQuery := target !! metadataKey propertyKey "Query" in
  let pBody := target !! metadataKey propertyKey "Body" in
  let pHeader := target !! metadataKey propertyKey "Header" in
  let (_, w) := oldDescriptor args w in
  match methodBuilder_body pBody args with
  | Throw e => (Throw e, w)
  | Normal body =>
      let resUrl := methodBuilder_path pPath args url in
      let params := methodBuilder_params Date_toString pQuery args in
      let headers :=
        methodBuilder_headers Date_toString (getDefaultHeaders this)
          (descriptor_headers descriptor) pHeader args in
      let requestUrl := requestUrl (getBaseUrl this) resUrl in
      (Normal
         {| call_method := method;
            call_url := requestUrl;
            call_options :=
              {| options_body := body;
                 options_headers := headers;
                 observe := "body";
                 options_params := params;
                 reportProgress := false;
                 responseType := VNull;
                 withCredentials := true;
                 options_extra := descriptor_extra descriptor |} |},
       w)
  end.

End Call.

(** The last value that a header object gives to the lower-cased name
    [i]; an empty list of values sets nothing. *)
Fixpoint last_set_key (hs : list (string * list string)) (i : string)
  : option (list string) :=
  match hs with
  | [] => None
  | (k, v) :: rest =>
      match last_set_key rest i with
      | Some v' => Some v'
      | None =>
          if String.eqb (toLowerCase k) i
          then match v with [] => None | _ => Some v end
          else None
      end
  end.

(** The last value that a header object gives to [name], as [HttpHeaders]
    compares names. *)
Definition last_set (hs : list (string * list string)) (name : string)
  : option (list string) :=
  last_set_key hs (toLowerCase name).

(** The value that a [Query] binding gives to its key when the argument is
    no plain object. *)
Definition query_value (Date_toString : option Z -> string) (value : JsValue)
  : JsValue :=
  if instanceof_Date value then VStr (getTime_toString (date_time value))
  else if Array_isArray value then
    VStr (Array_join Date_toString (array_items value))
  else if negb (isEmpty value) then VStr (ToString Date_toString value)
  else VStr "".

(** A plain object: an object that is neither a date nor an array. *)
Definition plain_object (value : JsValue) : bool :=
  negb (instanceof_Date value) && negb (Array_isArray value) && isObject value.


(** Parameter decorators applied one after the other to one method, in
    one role. *)
Definition declare_all (r : Role) (propertyKey : string) (ps : list ParamObj)
    (target : gmap string (list ParamObj)) : gmap string (list ParamObj) :=
  fold_left (fun t p =>
               paramDecorator (role_name r) (key p) t propertyKey
                 (parameterIndex p))
            ps target.

(** * Properties *)

(** ** The interceptor chain *)

Section ChainProofs.

Context {W : Type}.

Implicit Types (m : Store W) (items : list (RebirthHttpInterceptor W)).

Lemma reduce_list_app {A} (f : A -> RebirthHttpInterceptor W -> Eff W A)
    items1 items2 acc m :
  reduce_list f (items1 ++ items2) acc m =
  bind (reduce_list f items1 acc) (reduce_list f items2) m.
Proof.
  revert acc m. induction items1 as [|item rest IH]; intros acc m; simpl.
  - reflexivity.
  - unfold bind. destruct (f acc item m) as [[a|e] m1].
    + rewrite IH. reflexivity.
    + reflexivity.
Qed.

(** The reduction of [handleRequest] over the filtered elements. *)
Lemma reduce_request_steps items acc m :
  reduce_list request_step
    (List.filter (fun item => defined (request item)) items) acc m =
  (Normal (fst (request_chain items acc (world m))),
   {| arrays := arrays m;
      world := snd (request_chain items acc (world m)) |}).
Proof.
  revert acc m. induction items as [|item rest IH]; intros acc m; simpl.
  - destruct m; reflexivity.
  - destruct (request item) as [f|] eqn:Hreq; simpl.
    + unfold bind, request_step. rewrite Hreq.
      unfold bind, call, ret.
      destruct (f acc (world m)) as [r w'] eqn:Hf. simpl.
      rewrite IH. simpl. destruct r; reflexivity.
    + apply IH.
Qed.

(** The reduction of [handleResponse] over the reversed filtered
    elements. *)
Lemma reduce_response_steps original request0 items m :
  reduce_list (response_step original request0)
    (rev (List.filter (fun item => defined (response item)) items))
    original m =
  (Normal (fst (response_chain original request0 items (world m))),
   {| arrays := arrays m;
      world := snd (response_chain original request0 items (world m)) |}).
Proof.
  induction items as [|item later IH]; simpl.
  - destruct m; reflexivity.
  - destruct (response_chain original request0 later (world m))
      as [acc w1] eqn:Hlater.
    destruct (response item) as [f|] eqn:Hres; simpl.
    + rewrite reduce_list_app. unfold bind at 1. rewrite IH. simpl.
      unfold bind, response_step. rewrite Hres.
      unfold bind, call, ret. simpl.
      destruct (f acc request0 w1) as [r w2]. simpl.
      destruct r; reflexivity.
    + exact IH.
Qed.

Lemma elements_alloc (arr : gmap positive (list (RebirthHttpInterceptor W)))
    (w : W) a items :
  elements {| arrays := <[a := items]> arr; world := w |} a = items.
Proof. unfold elements. simpl. rewrite lookup_insert_eq. reflexivity. Qed.

(** What [handleRequest] returns and the store it leaves. *)
Lemma handleRequest_eval (this : RebirthHttpProvider) req m :
  handleRequest this req m =
  (Normal (fst (request_chain (elements m (interceptors this)) req (world m))),
   {| arrays :=
        <[fresh (dom (arrays m)) :=
            List.filter (fun item => defined (request item))
                        (elements m (interceptors this))]> (arrays m);
      world := snd (request_chain (elements m (interceptors this)) req
                                  (world m)) |}).
Proof.
  unfold handleRequest, bind, Array_filter, Array_new, Array_reduce.
  rewrite elements_alloc. rewrite reduce_request_steps. reflexivity.
Qed.

(** What [handleResponse] returns and the store it leaves. *)
Lemma handleResponse_eval (this : RebirthHttpProvider) response0 request0 m :
  handleResponse this response0 request0 m =
  (Normal (fst (response_chain response0 request0
                  (elements m (interceptors this)) (world m))),
   {| arrays :=
        <[fresh (dom (arrays m)) :=
            rev (List.filter (fun item => defined (response item))
                             (elements m (interceptors this)))]> (arrays m);
      world := snd (response_chain response0 request0
                      (elements m (interceptors this)) (world m)) |}).
Proof.
  unfold handleResponse, bind, Array_filter, Array_new, Array_reverse,
    Array_reduce.
  cbn [arrays world]. rewrite !elements_alloc.
  rewrite reduce_response_steps. cbn [arrays world].
  rewrite insert_insert_eq. reflexivity.
Qed.

Lemma fresh_array_other m (a : positive) items :
  arrays m !! a = Some items ->
  fresh (dom (arrays m)) <> a.
Proof.
  intros Ha Heq.
  assert (Hin : a ∈ dom (arrays m)) by (apply elem_of_dom; eauto).
  rewrite <- Heq in Hin. exact (is_fresh _ Hin).
Qed.

Lemma elements_lookup m a items :
  arrays m !! a = Some items -> elements m a = items.
Proof. intros H. unfold elements. rewrite H. reflexivity. Qed.

Lemma request_chain_fold items acc (w : W) :
  request_chain items acc w = request_fold items acc w.
Proof.
  unfold request_fold. revert acc w.
  induction items as [|item rest IH]; intros acc w; simpl.
  - reflexivity.
  - destruct (request item) as [f|]; simpl.
    + destruct (f acc w) as [r w']. apply IH.
    + apply IH.
Qed.

Lemma response_chain_fold original request0 items (w : W) :
  response_chain original request0 items w =
  response_fold original request0 items w.
Proof.
  unfold response_fold.
  induction items as [|item later IH]; [reflexivity|].
  cbn [response_chain]. rewrite IH. clear IH.
  change (omap response (item :: later))
    with (match response item with
          | Some f => f :: omap response later
          | None => omap response later
          end).
  destruct (response item) as [f|].
  - cbn [rev]. rewrite fold_left_app. reflexivity.
  - destruct (fold_left _ _ _). reflexivity.
Qed.

End ChainProofs.

Section ChainClaims.

Context {W : Type}.

Implicit Types (m : Store W) (items : list (RebirthHttpInterceptor W)).

(** C1. For every registered interceptor list and every initial response,
    [handleResponse] folds over the interceptors that have a [response]
    function in reverse registration order, and an interceptor whose
    [response] function returns nothing makes the accumulator the response
    that was passed to [handleResponse], not the value accumulated so
    far. *)
Theorem handleResponse_reverse_order (this : RebirthHttpProvider)
    (response0 : HttpEvent) (request0 : option HttpRequest) m items :
  arrays m !! interceptors this = Some items ->
  fst (handleResponse this response0 request0 m) =
    Normal (fst (response_fold response0 request0 items (world m))) /\
  world (snd (handleResponse this response0 request0 m)) =
    snd (response_fold response0 request0 items (world m)).
Proof.
  intros Hitems. rewrite handleResponse_eval.
  rewrite (elements_lookup _ _ _ Hitems), response_chain_fold.
  split; reflexivity.
Qed.

(** C2. For every registered interceptor list and every initial request,
    [handleRequest] folds from left to right over the interceptors that
    have a [request] function, in registration order, each on the
    accumulator of the one before; one that returns nothing leaves the
    accumulator as it is; the last accumulator is returned. *)
Theorem handleRequest_registration_order (this : RebirthHttpProvider)
    (req : HttpRequest) m items :
  arrays m !! interceptors this = Some items ->
  fst (handleRequest this req m) =
    Normal (fst (request_fold items req (world m))) /\
  world (snd (handleRequest this req m)) =
    snd (request_fold items req (world m)).
Proof.
  intros Hitems. rewrite handleRequest_eval.
  rewrite (elements_lookup _ _ _ Hitems), request_chain_fold.
  split; reflexivity.
Qed.

(** C10. Calling [handleRequest] or [handleResponse] leaves the array
    behind [getInterceptors] as it was: the same elements in the same
    order, although [handleResponse] reverses an array in place. *)
Theorem handlers_keep_interceptors (this : RebirthHttpProvider)
    (req : HttpRequest) (response0 : HttpEvent)
    (request0 : option HttpRequest) m items :
  arrays m !! getInterceptors this = Some items ->
  arrays (snd (handleRequest this req m)) !! getInterceptors this
    = Some items /\
  arrays (snd (handleResponse this response0 request0 m))
    !! getInterceptors this = Some items.
Proof.
  unfold getInterceptors. intros Hitems.
  pose proof (fresh_array_other _ _ _ Hitems) as Hfresh.
  rewrite handleRequest_eval, handleResponse_eval. simpl.
  rewrite !lookup_insert_ne by exact Hfresh. split; exact Hitems.
Qed.

End ChainClaims.

Lemma handleResponse_reverse_order_witness :
  arrays Examples.sample_store !! interceptors Examples.sample_provider
    = Some Examples.sample_items /\
  fst (handleResponse Examples.sample_provider (Examples.sample_response 200)
         None Examples.sample_store) =
    Normal (fst (response_fold (Examples.sample_response 200) None
                   Examples.sample_items (world Examples.sample_store))) /\
  world (snd (handleResponse Examples.sample_provider
                (Examples.sample_response 200) None Examples.sample_store)) =
    snd (response_fold (Examples.sample_response 200) None
           Examples.sample_items (world Examples.sample_store)).
Proof.
  split; [reflexivity|].
  apply (handleResponse_reverse_order Examples.sample_provider
           (Examples.sample_response 200) None Examples.sample_store
           Examples.sample_items).
  reflexivity.
Defined.

Lemma handleRequest_registration_order_witness :
  arrays Examples.sample_store !! interceptors Examples.sample_provider
    = Some Examples.sample_items /\
  fst (handleRequest Examples.sample_provider (Examples.sample_request "/x")
         Examples.sample_store) =
    Normal (fst (request_fold Examples.sample_items
                   (Examples.sample_request "/x")
                   (world Examples.sample_store))) /\
  world (snd (handleRequest Examples.sample_provider
                (Examples.sample_request "/x") Examples.sample_store)) =
    snd (request_fold Examples.sample_items (Examples.sample_request "/x")
           (world Examples.sample_store)).
Proof.
  split; [reflexivity|].
  apply (handleRequest_registration_order Examples.sample_provider
           (Examples.sample_request "/x") Examples.sample_store
           Examples.sample_items).
  reflexivity.
Defined.

Lemma handlers_keep_interceptors_witness :
  arrays Examples.sample_store !! getInterceptors Examples.sample_provider
    = Some Examples.sample_items /\
  arrays (snd (handleRequest Examples.sample_provider
                 (Examples.sample_request "/x") Examples.sample_store))
    !! getInterceptors Examples.sample_provider = Some Examples.sample_items /\
  arrays (snd (handleResponse Examples.sample_provider
                 (Examples.sample_response 500) None Examples.sample_store))
    !! getInterceptors Examples.sample_provider = Some Examples.sample_items.
Proof.
  split; [reflexivity|].
  apply (handlers_keep_interceptors Examples.sample_provider
           (Examples.sample_request "/x") (Examples.sample_response 500) None
           Examples.sample_store Examples.sample_items).
  reflexivity.
Defined.

(** The sample chain, run: [b] answers first, then [a] returns nothing and
    the original response comes back. *)
Example sample_chain_runs :
  response_fold (Examples.sample_response 200) None Examples.sample_items []
    = (Examples.sample_response 200, ["b"; "a"]) /\
  request_fold Examples.sample_items (Examples.sample_request "/x") []
    = (Examples.sample_request "/x/a/c", ["a"; "b"; "c"]).
Proof. split; reflexivity. Qed.

(** Order, seen from the end of the registration list: the interceptor
    registered last is the last to see a request. *)
Lemma request_chain_app {W} (items1 items2 : list (RebirthHttpInterceptor W))
    (acc : HttpRequest) (w : W) :
  request_chain (items1 ++ items2) acc w =
  let (acc', w') := request_chain items1 acc w in request_chain items2 acc' w'.
Proof.
  revert acc w. induction items1 as [|item rest IH]; intros acc w; simpl.
  - reflexivity.
  - destruct (request item) as [f|].
    + destruct (f acc w) as [r w']. apply IH.
    + apply IH.
Qed.

(** A response function that returns nothing puts the original response
    back, whatever the later-registered interceptors had produced. *)
Lemma response_chain_void {W} (original : HttpEvent)
    (request0 : option HttpRequest) (item : RebirthHttpInterceptor W)
    (later : list (RebirthHttpInterceptor W)) f (w : W) w' :
  response item = Some f ->
  (let (acc, w1) := response_chain original request0 later w in
   f acc request0 w1) = (None, w') ->
  response_chain original request0 (item :: later) w = (original, w').
Proof.
  intros Hres Hf. simpl.
  destruct (response_chain original request0 later w) as [acc w1].
  rewrite Hres, Hf. reflexivity.
Qed.

(** ** Registered interceptors *)

(** C3. The function registered by [addResponseErrorInterceptor] tests the
    global [event] and never the response it is given: when the global is
    no [HttpResponse] (in a browser it is [undefined] or a DOM event), the
    handler is not called and nothing is returned, also for a failed
    response. *)
Theorem responseError_skips_handler {W} (event : W -> WindowEvent)
    (interceptor : HttpEvent -> W -> option HttpEvent * W)
    (response0 : HttpEvent) (request0 : option HttpRequest) (w : W) :
  instanceof_HttpResponse (event w) = false ->
  responseError event interceptor response0 request0 w = (None, w).
Proof.
  intros Hev. unfold responseError. rewrite Hev. reflexivity.
Qed.

Lemma responseError_skips_handler_witness :
  instanceof_HttpResponse ((fun _ : Examples.Trace => NoEvent) []) = false /\
  responseError (fun _ => NoEvent) (Examples.record_error "onError")
    (Examples.sample_response 500) None [] = (None, []).
Proof.
  split; [reflexivity|].
  apply (responseError_skips_handler (fun _ : Examples.Trace => NoEvent)
           (Examples.record_error "onError") (Examples.sample_response 500)
           None []).
  reflexivity.
Defined.

(** Whether the handler runs is the same for any two responses. *)
Lemma responseError_blind {W} (event : W -> WindowEvent)
    (interceptor : HttpEvent -> W -> option HttpEvent * W)
    (r1 r2 : HttpEvent) (request0 : option HttpRequest) (w : W) :
  defined (fst (responseError event interceptor r1 request0 w)) =
  defined (fst (responseError event interceptor r2 request0 w)).
Proof.
  unfold responseError.
  destruct (instanceof_HttpResponse (event w) && negb (WindowEvent_ok (event w))).
  - destruct (interceptor r1 w), (interceptor r2 w). reflexivity.
  - reflexivity.
Qed.

(** Through the chain: a failed response comes back as it went in, and the
    handler has not run. *)
Example failed_response_unhandled :
  forall this m,
    RebirthHttpProvider_new Examples.Trace {| arrays := ∅; world := [] |}
      = (Normal this, m) ->
    forall this' m',
      addResponseErrorInterceptor Examples.Trace (fun _ => NoEvent) this
        (Examples.record_error "onError") m = (Normal this', m') ->
      fst (handleResponse this' (Examples.sample_response 500) None m')
        = Normal (Examples.sample_response 500) /\
      world (snd (handleResponse this' (Examples.sample_response 500) None m'))
        = [].
Proof.
  intros this m Hnew this' m' Hadd.
  vm_compute in Hnew. injection Hnew as <- <-.
  vm_compute in Hadd. injection Hadd as <- <-.
  split; vm_compute; reflexivity.
Qed.

(** The three cases of the function registered by [baseUrl]. *)
Lemma baseUrl_request_absolute {W} (host : Captured W string)
    (excludes : list RegExp) (request : HttpRequest) (w : W) :
  test_http_prefix (url request) = true ->
  baseUrl_request host excludes request w = (Some request, w).
Proof. intros H. unfold baseUrl_request. rewrite H. reflexivity. Qed.

Lemma baseUrl_request_excluded {W} (host : Captured W string)
    (excludes : list RegExp) (request : HttpRequest) (w : W) :
  existsb (fun t => t (url request)) excludes = true ->
  baseUrl_request host excludes request w = (Some request, w).
Proof.
  intros H. unfold baseUrl_request. rewrite H.
  destruct (test_http_prefix (url request)); reflexivity.
Qed.

Lemma baseUrl_request_relative {W} (host : Captured W string)
    (excludes : list RegExp) (request : HttpRequest) (w : W) :
  (forall a w0, read host (assign host a w0) = a) ->
  test_http_prefix (url request) = false ->
  existsb (fun t => t (url request)) excludes = false ->
  baseUrl_request host excludes request w =
  (Some (clone_url request
           (replace_trailing_slash (read host w) ++ "/" ++
            replace_leading_slash (url request))),
   assign host (replace_trailing_slash (read host w)) w).
Proof.
  intros Hcell Habs Hexc. unfold baseUrl_request.
  rewrite Habs, Hexc, Hcell. reflexivity.
Qed.

(** Two rewrites in a row: the second sees the host that the first left. *)
Lemma baseUrl_request_twice {W} (host : Captured W string)
    (excludes : list RegExp) (r1 r2 : HttpRequest) (w : W) :
  (forall a w0, read host (assign host a w0) = a) ->
  test_http_prefix (url r1) = false ->
  existsb (fun t => t (url r1)) excludes = false ->
  test_http_prefix (url r2) = false ->
  existsb (fun t => t (url r2)) excludes = false ->
  fst (baseUrl_request host excludes r2
         (snd (baseUrl_request host excludes r1 w))) =
  Some (clone_url r2
          (replace_trailing_slash (replace_trailing_slash (read host w))
           ++ "/" ++ replace_leading_slash (url r2))).
Proof.
  intros Hcell Habs1 Hexc1 Habs2 Hexc2.
  rewrite (baseUrl_request_relative host excludes r1 w Hcell Habs1 Hexc1).
  simpl.
  rewrite (baseUrl_request_relative host excludes r2 _ Hcell Habs2 Hexc2).
  simpl. rewrite Hcell. reflexivity.
Qed.

(** C4. [baseUrl("http://api.test//")], then two requests for ["/users"]:
    the first is sent to the host less one trailing slash, the second to the
    host less two, because each rewrite assigns the stripped string to the
    captured [host]. *)
Theorem baseUrl_strips_host_on_each_request :
  Examples.run_baseUrl "http://api.test//" ["/users"; "/users"] =
  [Normal "http://api.test//users"; Normal "http://api.test/users"].
Proof. vm_compute. reflexivity. Qed.

(** The example of the specification. *)
Example baseUrl_api_test :
  Examples.run_baseUrl "http://api.test/" ["http://existing.com/x"; "/users"] =
  [Normal "http://existing.com/x"; Normal "http://api.test/users"].
Proof. vm_compute. reflexivity. Qed.

(** ** Headers set by [headers(map)] *)

Lemma getAll_set_eq h name value :
  value <> [] ->
  HttpHeaders_getAll (HttpHeaders_set h name value) name = Some value.
Proof.
  intros Hv. unfold HttpHeaders_getAll, HttpHeaders_set.
  destruct value as [|v vs]; [congruence|]. simpl.
  apply lookup_insert_eq.
Qed.

Lemma getAll_set_ne h name value other :
  toLowerCase name <> toLowerCase other ->
  HttpHeaders_getAll (HttpHeaders_set h name value) other =
  HttpHeaders_getAll h other.
Proof.
  intros Hne. unfold HttpHeaders_getAll, HttpHeaders_set.
  destruct value as [|v vs]; [reflexivity|]. simpl.
  apply lookup_insert_ne. exact Hne.
Qed.

(** Names that the header object does not mention keep their values. *)
Lemma setHeaders_other hs h name :
  ~ In (toLowerCase name) (lower_names hs) ->
  HttpHeaders_getAll
    (fold_left (fun h '(name, value) => HttpHeaders_set h name value) hs h)
    name
  = HttpHeaders_getAll h name.
Proof.
  revert h. induction hs as [|[k v] rest IH]; intros h Hnot; simpl.
  - reflexivity.
  - simpl in Hnot. rewrite IH by tauto.
    apply getAll_set_ne. intros Heq. apply Hnot. left. exact Heq.
Qed.

(** A name that the header object mentions gets the value given there. *)
Lemma setHeaders_member hs h k v :
  List.NoDup (lower_names hs) -> In (k, v) hs -> v <> [] ->
  HttpHeaders_getAll
    (fold_left (fun h '(name, value) => HttpHeaders_set h name value) hs h)
    k
  = Some v.
Proof.
  revert h. induction hs as [|[k' v'] rest IH]; intros h Hnd Hin Hv; simpl.
  - destruct Hin.
  - simpl in Hnd. apply NoDup_cons_iff in Hnd as [Hfresh Hnd].
    destruct Hin as [Heq|Hin].
    + injection Heq as -> ->.
      rewrite setHeaders_other by exact Hfresh.
      apply getAll_set_eq. exact Hv.
    + apply (IH _ Hnd Hin Hv).
Qed.

(** For a map whose names differ and an entry of it that has a value: a
    header under another name is kept, and a header that the request
    already carries under the name of the entry is replaced by the value of
    the entry, so that the name has that one entry. *)
Lemma headers_request_replaces {W} (hs : list (string * list string))
    (request : HttpRequest) (w : W) (k : string) (v : list string) :
  List.NoDup (lower_names hs) -> In (k, v) hs -> v <> [] ->
  exists request',
    headers_request hs request w = (Some request', w) /\
    url request' = url request /\
    HttpHeaders_getAll (headers request') k = Some v /\
    forall name,
      ~ In (toLowerCase name) (lower_names hs) ->
      HttpHeaders_getAll (headers request') name =
      HttpHeaders_getAll (headers request) name.
Proof.
  intros Hnd Hin Hv. exists (clone_setHeaders request hs).
  split; [reflexivity|]. split; [reflexivity|]. split.
  - simpl. apply setHeaders_member; assumption.
  - intros name Hname. simpl. apply setHeaders_other. exact Hname.
Qed.

Lemma headers_request_replaces_witness :
  List.NoDup (lower_names [("Authorization", ["X"])]) /\
  In ("Authorization", ["X"]) [("Authorization", ["X"])] /\
  ["X"] <> [] /\
  exists request',
    headers_request [("Authorization", ["X"])] Examples.authorized_request tt
      = (Some request', tt) /\
    url request' = url Examples.authorized_request /\
    HttpHeaders_getAll (headers request') "Authorization" = Some ["X"] /\
    forall name,
      ~ In (toLowerCase name) (lower_names [("Authorization", ["X"])]) ->
      HttpHeaders_getAll (headers request') name =
      HttpHeaders_getAll (headers Examples.authorized_request) name.
Proof.
  assert (Hnd : List.NoDup (lower_names [("Authorization", ["X"])])).
  { constructor; [simpl; tauto | constructor]. }
  assert (Hin : In ("Authorization", ["X"]) [("Authorization", ["X"])]).
  { left. reflexivity. }
  assert (Hv : ["X"] <> @nil string) by discriminate.
  split; [exact Hnd|]. split; [exact Hin|]. split; [exact Hv|].
  exact (headers_request_replaces [("Authorization", ["X"])]
           Examples.authorized_request tt "Authorization" ["X"] Hnd Hin Hv).
Defined.

(** C5, as the claim has it, fails: the request carries
    [Authorization: Y], [headers({Authorization: "X"})] is applied, and the
    name has the one entry [X], not the two entries [Y] and [X]. *)
Lemma headers_request_same_name_counterexample :
  HttpHeaders_getAll (headers Examples.authorized_request) "Authorization"
    = Some ["Y"] /\
  exists request',
    headers_request [("Authorization", ["X"])] Examples.authorized_request tt
      = (Some request', tt) /\
    HttpHeaders_getAll (headers request') "Authorization" = Some ["X"] /\
    HttpHeaders_getAll (headers request') "Authorization" <> Some ["Y"; "X"] /\
    length (default [] (HttpHeaders_getAll (headers request') "Authorization"))
      <> 2.
Proof.
  split; [vm_compute; reflexivity|].
  eexists. split; [reflexivity|].
  split; [vm_compute; reflexivity|].
  split; vm_compute; discriminate.
Qed.

(** ** Parameter declarations *)

(** C9. [Path] and [Header] applied without a key throw at declaration
    time, [Query] applied without a key gives its decorator; of the four
    roles, the builder of [Query] alone succeeds without a key. *)
Theorem key_required_unless_query :
  Path None = Throw (Error "Path Key is required!") /\
  Header None = Throw (Error "Header Key is required!") /\
  Query None = Normal (paramDecorator "Query" None) /\
  forall r : Role, succeeds (role_builder r None) <-> r = RQuery.
Proof.
  split; [reflexivity|]. split; [reflexivity|]. split; [reflexivity|].
  intros r. split.
  - intros [d Hd]. destruct r; try reflexivity; discriminate Hd.
  - intros ->. eexists. reflexivity.
Qed.

(** The empty string is no key either, and [Body] is declared with its
    key. *)
Lemma empty_key_is_no_key :
  Path (Some "") = Throw (Error "Path Key is required!") /\
  Header (Some "") = Throw (Error "Header Key is required!") /\
  Body = Normal (paramDecorator "Body" (Some "Body")).
Proof. repeat split. Qed.

(** With a key, every role is declared, and the decorator records the key
    and the position of the parameter. *)
Lemma declared_with_key (r : Role) (k : string) :
  k <> "" -> succeeds (role_builder r (Some k)).
Proof.
  intros Hk. assert (Hno : no_key (Some k) = false).
  { simpl. apply String.eqb_neq. exact Hk. }
  destruct r; unfold role_builder, paramBuilder; rewrite Hno;
    simpl; eexists; reflexivity.
Qed.

Lemma paramDecorator_records paramName k target propertyKey parameterIndex :
  paramDecorator paramName k target propertyKey parameterIndex
    !! (propertyKey ++ "_" ++ paramName ++ "_parameters")%string =
  Some (default [] (target !! (propertyKey ++ "_" ++ paramName ++ "_parameters")%string)
        ++ [{| key := k; parameterIndex := parameterIndex |}]).
Proof.
  unfold paramDecorator.
  destruct (target !! _) as [l|]; simpl; apply lookup_insert_eq.
Qed.

(** ** The headers of a call *)

(** C6. The [// Headers] block of [methodBuilder] sends the class-level
    default headers alone: what [headers.append] returns for the [Headers]
    annotation and for the [Header] bindings is dropped. *)
Theorem methodBuilder_headers_are_defaults (Date_toString : option Z -> string)
    (getDefaultHeaders descriptor_headers : option (list (string * list string)))
    (pHeader : option (list ParamObj)) (args : list JsValue) :
  methodBuilder_headers Date_toString getDefaultHeaders descriptor_headers
    pHeader args
  = HttpHeaders_new getDefaultHeaders.
Proof.
  unfold methodBuilder_headers.
  generalize (HttpHeaders_new getDefaultHeaders) as h.
  generalize (default [] pHeader) as bindings.
  generalize (default [] descriptor_headers) as fixed.
  intros fixed bindings h.
  assert (Hfixed : forall l h0,
    fold_left (fun headers '(k, v) =>
                 let _ := HttpHeaders_append headers k v in headers) l h0 = h0).
  { induction l as [|[k v] rest IH]; intros h0; simpl; [reflexivity | apply IH]. }
  rewrite Hfixed.
  induction bindings as [|p rest IH]; simpl; [reflexivity | exact IH].
Qed.

(** A method with [Headers({Accept: "application/json"})] and a
    [Header("X-Token")] parameter, called with ["t"]: neither header is
    sent, where the three stages would give both. *)
Example annotated_headers_missing :
  let sent :=
    methodBuilder_headers Examples.no_zone None
      (Some [("Accept", ["application/json"])])
      (Some [{| key := Some "X-Token"; parameterIndex := 0 |}]) [VStr "t"] in
  let staged :=
    staged_headers Examples.no_zone None
      (Some [("Accept", ["application/json"])])
      (Some [{| key := Some "X-Token"; parameterIndex := 0 |}]) [VStr "t"] in
  HttpHeaders_getAll sent "Accept" = None /\
  HttpHeaders_getAll sent "X-Token" = None /\
  HttpHeaders_getAll staged "Accept" = Some ["application/json"] /\
  HttpHeaders_getAll staged "X-Token" = Some ["t"].
Proof. vm_compute. repeat split. Qed.

(** [append] on names already present gives repeated entries. *)
Example staged_headers_repeat :
  HttpHeaders_getAll
    (staged_headers Examples.no_zone (Some [("Accept", ["a"])])
       (Some [("accept", ["b"])])
       (Some [{| key := Some "ACCEPT"; parameterIndex := 0 |}]) [VStr "c"])
    "Accept" = Some ["a"; "b"; "c"].
Proof. vm_compute. reflexivity. Qed.

(** ** The query of a call *)

Lemma entries_get_set_eq param values l :
  entries_get param (entries_set param values l) = Some values.
Proof.
  induction l as [|[k vs] rest IH]; simpl.
  - rewrite decide_True by reflexivity. reflexivity.
  - destruct (decide (k = param)) as [->|Hne]; simpl.
    + rewrite decide_True by reflexivity. reflexivity.
    + rewrite decide_False by exact Hne. exact IH.
Qed.


Lemma params_getAll_set_eq ps param value :
  HttpParams_getAll (HttpParams_set ps param value) param = Some [value].
Proof. apply entries_get_set_eq. Qed.


(** Setting a name that is there keeps the names and their order. *)
Lemma entries_set_keys param values l :
  entries_get param l <> None ->
  List.map fst (entries_set param values l) = List.map fst l.
Proof.
  induction l as [|[k vs] rest IH]; simpl; intros Hin.
  - congruence.
  - destruct (decide (k = param)) as [->|Hne]; simpl.
    + reflexivity.
    + f_equal. apply IH. exact Hin.
Qed.

(** Two bindings with one key: the later value is the one that stays. *)
Lemma params_last_wins ps param v1 v2 :
  HttpParams_getAll (HttpParams_set (HttpParams_set ps param v1) param v2) param
    = Some [v2] /\
  HttpParams_keys (HttpParams_set (HttpParams_set ps param v1) param v2)
    = HttpParams_keys (HttpParams_set ps param v1).
Proof.
  split.
  - apply params_getAll_set_eq.
  - unfold HttpParams_keys, HttpParams_set. simpl.
    apply entries_set_keys. rewrite entries_get_set_eq. discriminate.
Qed.

Section QueryProofs.

Variable Date_toString : option Z -> string.

Lemma query_step_date args ps p t :
  arg args (parameterIndex p) = VDate t ->
  query_step Date_toString args ps p =
  HttpParams_set ps (key p) (VStr (getTime_toString t)).
Proof. intros H. unfold query_step. rewrite H. reflexivity. Qed.

Lemma query_step_array args ps p items :
  arg args (parameterIndex p) = VArray items ->
  query_step Date_toString args ps p =
  HttpParams_set ps (key p) (VStr (Array_join Date_toString items)).
Proof. intros H. unfold query_step. rewrite H. reflexivity. Qed.


(** Of the own properties of an object, the last one alone is set. *)
Lemma query_step_object args ps p props k v :
  arg args (parameterIndex p) = VObject (props ++ [(k, v)]) ->
  query_step Date_toString args ps p = HttpParams_set ps (Some k) v.
Proof.
  intros H. unfold query_step. rewrite H. simpl.
  rewrite fold_left_app. reflexivity.
Qed.

Lemma query_step_no_props args ps p :
  arg args (parameterIndex p) = VObject [] ->
  query_step Date_toString args ps p = ps.
Proof. intros H. unfold query_step. rewrite H. reflexivity. Qed.







(** C8. A method whose one [Query] binding receives a plain object gives
    a query with the last own key of the object and no other: every own
    key is set on the parameters as they were before the object, not on
    the result of the key before. *)
Theorem query_object_keeps_last_key (args : list JsValue) (p : ParamObj)
    (props : list (string * JsValue)) (k : string) (v : JsValue) :
  arg args (parameterIndex p) = VObject (props ++ [(k, v)]) ->
  methodBuilder_params Date_toString (Some [p]) args
  = {| param_entries := [(Some k, [v])] |}.
Proof.
  intros Hobj. unfold methodBuilder_params. simpl.
  rewrite Hobj. simpl.
  rewrite (query_step_object args HttpParams_new p props k v Hobj).
  reflexivity.
Qed.

End QueryProofs.

Lemma query_object_keeps_last_key_witness :
  arg [VObject [("a", VNum 1); ("b", VNum 2)]] 0
    = VObject ([("a", VNum 1)] ++ [("b", VNum 2)]) /\
  methodBuilder_params Examples.no_zone
    (Some [{| key := Some "filter"; parameterIndex := 0 |}])
    [VObject [("a", VNum 1); ("b", VNum 2)]]
  = {| param_entries := [(Some "b", [VNum 2])] |}.
Proof.
  split; [reflexivity|].
  apply (query_object_keeps_last_key Examples.no_zone
           [VObject [("a", VNum 1); ("b", VNum 2)]]
           {| key := Some "filter"; parameterIndex := 0 |}
           [("a", VNum 1)] "b" (VNum 2)).
  reflexivity.
Defined.



(** A [null] argument before a binding with the same key: the key is in
    the query, with the value of the later binding. *)
Example query_null_then_overwritten :
  methodBuilder_params Examples.no_zone
    (Some [ {| key := Some "q"; parameterIndex := 0 |};
            {| key := Some "q"; parameterIndex := 1 |} ])
    [VNull; VStr "x"]
  = {| param_entries := [(Some "q", [VStr "x"])] |}.
Proof. reflexivity. Qed.

(** The other shapes of a [Query] argument: a date, an array, a string, a
    number, a boolean, and two bindings with one key. *)
Example query_shapes :
  methodBuilder_params Examples.no_zone
    (Some [ {| key := Some "since"; parameterIndex := 0 |};
            {| key := Some "ids"; parameterIndex := 1 |};
            {| key := Some "name"; parameterIndex := 2 |};
            {| key := Some "page"; parameterIndex := 3 |};
            {| key := Some "verbose"; parameterIndex := 4 |};
            {| key := Some "page"; parameterIndex := 5 |};
            {| key := Some "gone"; parameterIndex := 6 |} ])
    [ VDate (Some 1500000000000%Z); VArray [VNum 1; VNum 2; VStr "x"];
      VStr ""; VNum 1; VBool true; VNum 7 ]
  = {| param_entries :=
         [ (Some "since", [VStr "1500000000000"]);
           (Some "ids", [VStr "1,2,x"]);
           (Some "name", [VStr ""]);
           (Some "page", [VStr "7"]);
           (Some "verbose", [VStr "true"]) ] |}.
Proof. vm_compute. reflexivity. Qed.

(** What flattening the object would give. *)
Example object_flattened :
  flattened HttpParams_new [("a", VNum 1); ("b", VNum 2)]
  = {| param_entries := [(Some "a", [VNum 1]); (Some "b", [VNum 2])] |}.
Proof. reflexivity. Qed.


(** ** The earlier variant *)

(** There, every own key of an object becomes a parameter. *)
Example legacy_object_flattened :
  Legacy.methodBuilder_search Examples.no_zone (fun s => s)
    (Some [{| key := Some "filter"; parameterIndex := 0 |}])
    [VObject [("a", VNum 1); ("b", VNum 2)]]
  = {| Legacy.paramsMap := [("a", ["1"]); ("b", ["2"])] |}.
Proof. reflexivity. Qed.

(** X20. There, a binding whose argument is falsy is left out, the empty
    string and [null] as well as [undefined]. *)
Lemma legacy_falsy_left_out (Date_toString : option Z -> string)
    (encodeURIComponent : string -> string) (args : list JsValue)
    (p : ParamObj) (before after : list ParamObj) :
  Legacy.truthy (arg args (parameterIndex p)) = false ->
  Legacy.methodBuilder_search Date_toString encodeURIComponent
    (Some (before ++ p :: after)) args =
  Legacy.methodBuilder_search Date_toString encodeURIComponent
    (Some (before ++ after)) args.
Proof.
  intros Hfalsy. unfold Legacy.methodBuilder_search.
  rewrite !List.filter_app. simpl. rewrite Hfalsy. reflexivity.
Qed.

(** There, the annotation of the method and the bindings of the call add
    their entries to the default headers. *)
Example legacy_headers_staged :
  let sent :=
    Legacy.methodBuilder_headers Examples.no_zone
      (Some [("Accept", "text/plain")])
      (Some [("Accept", "application/json")])
      (Some [{| key := Some "X-Token"; parameterIndex := 0 |}]) [VStr "t"] in
  Legacy._headers sent !! "accept" = Some ["text/plain"; "application/json"] /\
  Legacy._headers sent !! "x-token" = Some ["t"].
Proof. vm_compute. split; reflexivity. Qed.

(** * Further properties *)

(** ** Parameter metadata *)

Lemma list_ascii_of_string_app (a b : string) :
  list_ascii_of_string (a ++ b) =
  list_ascii_of_string a ++ list_ascii_of_string b.
Proof. induction a as [|c a IH]; simpl; [reflexivity | now rewrite IH]. Qed.

Lemma list_ascii_of_string_inj (a b : string) :
  list_ascii_of_string a = list_ascii_of_string b -> a = b.
Proof.
  intros H. rewrite <- (string_of_list_ascii_of_string a),
    <- (string_of_list_ascii_of_string b), H. reflexivity.
Qed.

(** The reversed characters of a metadata key: those of the role suffix,
    then those of the method name. *)
Lemma metadataKey_rev (propertyKey : string) (r : Role) :
  rev (list_ascii_of_string (metadataKey propertyKey (role_name r))) =
  rev (list_ascii_of_string ("_" ++ role_name r ++ "_parameters"))
  ++ rev (list_ascii_of_string propertyKey).
Proof.
  unfold metadataKey. rewrite list_ascii_of_string_app, rev_app_distr.
  reflexivity.
Qed.

(** Two metadata keys are the same only for the same method and role. *)
Lemma metadataKey_inj (pk pk' : string) (r r' : Role) :
  metadataKey pk (role_name r) = metadataKey pk' (role_name r') ->
  pk = pk' /\ r = r'.
Proof.
  intros H.
  apply (f_equal (fun s => rev (list_ascii_of_string s))) in H.
  rewrite !metadataKey_rev in H.
  destruct r, r'; simpl in H; simplify_eq;
    (split; [|reflexivity]);
    apply list_ascii_of_string_inj, rev_inj; assumption.
Qed.

Lemma paramDecorator_own paramName k target propertyKey parameterIndex :
  default [] (paramDecorator paramName k target propertyKey parameterIndex
                !! metadataKey propertyKey paramName) =
  default [] (target !! metadataKey propertyKey paramName)
  ++ [{| key := k; parameterIndex := parameterIndex |}].
Proof.
  unfold paramDecorator, metadataKey.
  destruct (target !! _) as [l|]; simpl; rewrite lookup_insert_eq; reflexivity.
Qed.

Lemma paramDecorator_other paramName k target propertyKey parameterIndex other :
  other <> metadataKey propertyKey paramName ->
  paramDecorator paramName k target propertyKey parameterIndex !! other =
  target !! other.
Proof.
  intros Hne. unfold paramDecorator. fold (metadataKey propertyKey paramName).
  destruct (target !! metadataKey propertyKey paramName);
    apply lookup_insert_ne; congruence.
Qed.

(** X1. Parameter decorators applied one after the other to one method in
    one role leave, under the metadata key of that method and role, the
    records that were there followed by the new ones in the order of
    application. *)
Theorem declarations_accumulate (r : Role) (propertyKey : string)
    (ps : list ParamObj) (target : gmap string (list ParamObj)) :
  default [] (declare_all r propertyKey ps target
                !! metadataKey propertyKey (role_name r)) =
  default [] (target !! metadataKey propertyKey (role_name r)) ++ ps.
Proof.
  unfold declare_all. revert target.
  induction ps as [|p rest IH]; intros target; simpl.
  - rewrite app_nil_r. reflexivity.
  - rewrite IH, paramDecorator_own, <- app_assoc. destruct p; reflexivity.
Qed.

(** X2. A parameter declaration for one method and role leaves the
    parameters of every other method, and of every other role of the same
    method, as they were. *)
Theorem declaration_isolated (r r' : Role) (pk pk' : string)
    (k : option string) (index : nat) (target : gmap string (list ParamObj)) :
  (pk, r) <> (pk', r') ->
  paramDecorator (role_name r) k target pk index
    !! metadataKey pk' (role_name r') =
  target !! metadataKey pk' (role_name r').
Proof.
  intros Hne. apply paramDecorator_other. intros Heq.
  apply metadataKey_inj in Heq as [-> ->]. apply Hne. reflexivity.
Qed.

Lemma declaration_isolated_witness :
  ("find", RQuery) <> ("find", RBody) /\
  paramDecorator (role_name RQuery) (Some "q") ∅ "find" 0
    !! metadataKey "find" (role_name RBody) =
  (∅ : gmap string (list ParamObj)) !! metadataKey "find" (role_name RBody).
Proof.
  assert (Hne : ("find", RQuery) <> ("find", RBody)) by discriminate.
  split; [exact Hne|].
  exact (declaration_isolated RQuery RBody "find" "find" (Some "q") 0 ∅ Hne).
Defined.

(** X3. A parameter declared on one method does not change what a call of
    another method sends. *)
Theorem call_ignores_other_methods {W} (Date_toString : option Z -> string)
    (method url : string) (target : gmap string (list ParamObj))
    (pk pk' : string) (r' : Role) (k : option string) (index : nat)
    (oldDescriptor : list JsValue -> W -> Completion JsValue * W)
    (descriptor : Descriptor) (this : RebirthHttp) (args : list JsValue)
    (w : W) :
  pk <> pk' ->
  methodBuilder Date_toString method url
    (paramDecorator (role_name r') k target pk' index) pk oldDescriptor
    descriptor this args w =
  methodBuilder Date_toString method url target pk oldDescriptor descriptor
    this args w.
Proof.
  intros Hne.
  assert (Hsame : forall r,
    paramDecorator (role_name r') k target pk' index
      !! metadataKey pk (role_name r) = target !! metadataKey pk (role_name r)).
  { intros r. apply declaration_isolated. congruence. }
  pose proof (Hsame RPath) as HPath. pose proof (Hsame RQuery) as HQuery.
  pose proof (Hsame RBody) as HBody. pose proof (Hsame RHeader) as HHeader.
  cbn [role_name] in HPath, HQuery, HBody, HHeader.
  unfold methodBuilder. rewrite HPath, HQuery, HBody, HHeader.
  reflexivity.
Qed.

Lemma call_ignores_other_methods_witness :
  "find" <> "remove" /\
  methodBuilder (W := unit) (fun _ => "") "GET" "/items/:id"
    (paramDecorator (role_name RPath) (Some "id") ∅ "remove" 0) "find"
    (fun _ w => (Normal VUndefined, w))
    {| descriptor_headers := None; descriptor_extra := None |}
    RebirthHttp_base [VNum 7] tt =
  methodBuilder (W := unit) (fun _ => "") "GET" "/items/:id" ∅ "find"
    (fun _ w => (Normal VUndefined, w))
    {| descriptor_headers := None; descriptor_extra := None |}
    RebirthHttp_base [VNum 7] tt.
Proof.
  assert (Hne : "find" <> "remove") by discriminate.
  split; [exact Hne|].
  exact (call_ignores_other_methods (fun _ => "") "GET" "/items/:id" ∅
           "find" "remove" RPath (Some "id") 0
           (fun _ (w : unit) => (Normal VUndefined, w))
           {| descriptor_headers := None; descriptor_extra := None |}
           RebirthHttp_base [VNum 7] tt Hne).
Defined.

(** The end-to-end example: a [GET] method with the template
    [/items/:id], a [Path("id")] and a [Query("verbose")] parameter, called
    with [(7, true)] on a class with [@BaseUrl("http://x/")]. *)
Example get_item_call :
  let target :=
    paramDecorator "Path" (Some "id")
      (paramDecorator "Query" (Some "verbose") ∅ "getItem" 1) "getItem" 0 in
  fst (methodBuilder (W := unit) (fun _ => "") "GET" "/items/:id" target
         "getItem" (fun _ w => (Throw (Error "not implemented"), w))
         {| descriptor_headers := None; descriptor_extra := None |}
         (BaseUrl "http://x/" RebirthHttp_base) [VNum 7; VBool true] tt)
  = Normal
      {| call_method := "GET";
         call_url := "http://x/items/7";
         call_options :=
           {| options_body := VStr "";
              options_headers := HttpHeaders_empty;
              observe := "body";
              options_params :=
                {| param_entries := [(Some "verbose", [VStr "true"])] |};
              reportProgress := false;
              responseType := VNull;
              withCredentials := true;
              options_extra := None |} |}.
Proof. vm_compute. reflexivity. Qed.

(** ** Registration and the chain *)

Section Registration.

Context {W : Type}.

Implicit Types (m : Store W) (items : list (RebirthHttpInterceptor W)).

Lemma addInterceptor_eval (this : RebirthHttpProvider)
    (i : RebirthHttpInterceptor W) m :
  addInterceptor this i m =
  (Normal this,
   {| arrays := <[interceptors this := elements m (interceptors this) ++ [i]]>
                  (arrays m);
      world := world m |}).
Proof. reflexivity. Qed.

Lemma request_fold_snoc items (i : RebirthHttpInterceptor W) req (w : W) :
  request_fold (items ++ [i]) req w =
  match request i with
  | None => request_fold items req w
  | Some f =>
      let (acc, w1) := request_fold items req w in
      let (r, w2) := f acc w1 in
      (or_else r acc, w2)
  end.
Proof.
  unfold request_fold. rewrite omap_app. simpl.
  destruct (request i) as [f|]; simpl.
  - rewrite fold_left_app. simpl.
    destruct (fold_left _ (omap request items) (req, w)) as [acc w1].
    destruct (f acc w1) as [[x|] w2]; reflexivity.
  - rewrite app_nil_r. reflexivity.
Qed.

Lemma response_fold_snoc original request0 items
    (i : RebirthHttpInterceptor W) (w : W) :
  response_fold original request0 (items ++ [i]) w =
  match response i with
  | None => response_fold original request0 items w
  | Some f =>
      let (r, w1) := f original request0 w in
      response_fold_from original request0 items (or_else r original, w1)
  end.
Proof.
  unfold response_fold, response_fold_from. rewrite omap_app. simpl.
  destruct (response i) as [f|]; simpl.
  - rewrite rev_app_distr. simpl.
    destruct (f original request0 w) as [[x|] w1]; reflexivity.
  - rewrite app_nil_r. reflexivity.
Qed.

(** X4. [addInterceptor] puts the interceptor at the end of the list and
    returns the provider; on the next request the new interceptor runs
    last, on what the interceptors registered before it have made of the
    request. *)
Theorem registered_last_runs_last (this : RebirthHttpProvider)
    (i : RebirthHttpInterceptor W) (req : HttpRequest) m items :
  arrays m !! interceptors this = Some items ->
  fst (addInterceptor this i m) = Normal this /\
  arrays (snd (addInterceptor this i m)) !! getInterceptors this
    = Some (items ++ [i]) /\
  fst (handleRequest this req (snd (addInterceptor this i m))) =
    Normal
      (let (acc, w1) := request_fold items req (world m) in
       match request i with
       | None => acc
       | Some f => or_else (fst (f acc w1)) acc
       end).
Proof.
  intros Hitems. rewrite addInterceptor_eval. simpl.
  rewrite (elements_lookup _ _ _ Hitems).
  split; [reflexivity|]. split; [apply lookup_insert_eq|].
  rewrite handleRequest_eval. simpl.
  unfold elements. simpl. rewrite lookup_insert_eq. simpl.
  rewrite request_chain_fold, request_fold_snoc.
  destruct (request_fold items req (world m)) as [acc w1].
  destruct (request i) as [f|]; [|reflexivity].
  destruct (f acc w1) as [r w2]. reflexivity.
Qed.

(** X5. On the next response the interceptor registered last runs first,
    on the response as it came in; the interceptors registered before it
    go on from what it returns, or from the response as it came in when it
    returns nothing. *)
Theorem registered_last_answers_first (this : RebirthHttpProvider)
    (i : RebirthHttpInterceptor W) f (response0 : HttpEvent)
    (request0 : option HttpRequest) m items :
  arrays m !! interceptors this = Some items ->
  response i = Some f ->
  fst (handleResponse this response0 request0 (snd (addInterceptor this i m)))
  = Normal
      (fst (response_fold_from response0 request0 items
              (or_else (fst (f response0 request0 (world m))) response0,
               snd (f response0 request0 (world m))))).
Proof.
  intros Hitems Hres. rewrite addInterceptor_eval.
  rewrite (elements_lookup _ _ _ Hitems).
  rewrite handleResponse_eval. simpl.
  unfold elements. simpl. rewrite lookup_insert_eq. simpl.
  rewrite response_chain_fold, response_fold_snoc, Hres.
  destruct (f response0 request0 (world m)) as [r w1]. reflexivity.
Qed.

End Registration.

Lemma registered_last_runs_last_witness :
  arrays Examples.sample_store !! interceptors Examples.sample_provider
    = Some Examples.sample_items /\
  fst (handleRequest Examples.sample_provider (Examples.sample_request "/x")
         (snd (addInterceptor Examples.sample_provider
                 (request_item (Examples.suffix_request "d" "/d"))
                 Examples.sample_store))) =
  Normal
    (let (acc, w1) :=
       request_fold Examples.sample_items (Examples.sample_request "/x")
         (world Examples.sample_store) in
     match request (request_item (Examples.suffix_request "d" "/d")) with
     | None => acc
     | Some f => or_else (fst (f acc w1)) acc
     end).
Proof.
  split; [reflexivity|].
  apply (registered_last_runs_last Examples.sample_provider
           (request_item (Examples.suffix_request "d" "/d"))
           (Examples.sample_request "/x") Examples.sample_store
           Examples.sample_items).
  reflexivity.
Defined.

Lemma registered_last_answers_first_witness :
  arrays Examples.sample_store !! interceptors Examples.sample_provider
    = Some Examples.sample_items /\
  fst (handleResponse Examples.sample_provider (Examples.sample_response 200)
         None
         (snd (addInterceptor Examples.sample_provider
                 {| request := None;
                    response := Some (Examples.tag_response "d") |}
                 Examples.sample_store)))
  = Normal
      (fst (response_fold_from (Examples.sample_response 200) None
              Examples.sample_items
              (or_else (fst (Examples.tag_response "d"
                               (Examples.sample_response 200) None
                               (world Examples.sample_store)))
                       (Examples.sample_response 200),
               snd (Examples.tag_response "d" (Examples.sample_response 200)
                      None (world Examples.sample_store))))).
Proof.
  split; [reflexivity|].
  apply (registered_last_answers_first Examples.sample_provider
           {| request := None; response := Some (Examples.tag_response "d") |}
           (Examples.tag_response "d") (Examples.sample_response 200) None
           Examples.sample_store Examples.sample_items); reflexivity.
Defined.

Section Wrappers.

Context {W : Type}.

Implicit Types (m : Store W) (items : list (RebirthHttpInterceptor W)).

(** The three [add...Interceptor] methods register the interceptors
    named above. *)
Lemma add_methods_register (event : W -> WindowEvent)
    (this : RebirthHttpProvider) m
    (f : HttpRequest -> W -> option HttpRequest * W)
    (g : HttpEvent -> W -> option HttpEvent * W) :
  addRequestInterceptor W this f m = addInterceptor this (request_item f) m /\
  addResponseInterceptor W this g m = addInterceptor this (response_item g) m /\
  addResponseErrorInterceptor W event this g m =
    addInterceptor this (responseError_item event g) m.
Proof. repeat split. Qed.

Lemma fold_response_items original request0
    (fns : list (HttpEvent -> W -> option HttpEvent * W))
    (start : HttpEvent * W) :
  fold_left (fun (state : HttpEvent * W)
                 (f : HttpEvent -> option HttpRequest -> W ->
                      option HttpEvent * W) =>
               let (acc, w) := state in
               let (r, w') := f acc request0 w in
               (match r with Some e => e | None => original end, w'))
            (rev (omap response (List.map response_item fns))) start
  = compose_all (rev fns) start.
Proof.
  unfold compose_all.
  induction fns as [|fn rest IH]; [reflexivity|].
  change (omap response (List.map response_item (fn :: rest)))
    with ((fun response (_ : option HttpRequest) w =>
             let (r, w') := fn response w in
             (Some (or_else r response), w'))
          :: omap response (List.map response_item rest)).
  cbn [rev]. rewrite !fold_left_app, IH. cbn [fold_left].
  destruct (fold_left _ (rev rest) start) as [acc w].
  destruct (fn acc w) as [r w']. reflexivity.
Qed.

(** X6. When every interceptor of the provider was registered with
    [addResponseInterceptor], [handleResponse] applies the registered
    functions in reverse registration order, each to the result of the one
    before, and a function that returns nothing keeps that result: the
    response as it came in is not put back. *)
Theorem added_response_interceptors_compose (this : RebirthHttpProvider)
    (fns : list (HttpEvent -> W -> option HttpEvent * W))
    (response0 : HttpEvent) (request0 : option HttpRequest) m :
  arrays m !! interceptors this = Some (List.map response_item fns) ->
  fst (handleResponse this response0 request0 m) =
    Normal (fst (compose_all (rev fns) (response0, world m))) /\
  world (snd (handleResponse this response0 request0 m)) =
    snd (compose_all (rev fns) (response0, world m)).
Proof.
  intros Hitems. rewrite handleResponse_eval.
  rewrite (elements_lookup _ _ _ Hitems), response_chain_fold.
  unfold response_fold. rewrite fold_response_items. split; reflexivity.
Qed.

Lemma responseError_skips_handler_aux (event : W -> WindowEvent)
    (interceptor : HttpEvent -> W -> option HttpEvent * W)
    (response0 : HttpEvent) (request0 : option HttpRequest) (w : W) :
  instanceof_HttpResponse (event w) = false ->
  responseError event interceptor response0 request0 w = (None, w).
Proof. intros Hev. unfold responseError. rewrite Hev. reflexivity. Qed.

(** X7. When the interceptor registered first is one of
    [addResponseErrorInterceptor] and the global [event] is no
    [HttpResponse], [handleResponse] returns the response as it came in,
    whatever the interceptors registered after it return. *)
Theorem error_interceptor_first_restores (event : W -> WindowEvent)
    (this : RebirthHttpProvider)
    (interceptor : HttpEvent -> W -> option HttpEvent * W)
    (response0 : HttpEvent) (request0 : option HttpRequest) m later :
  arrays m !! interceptors this
    = Some (responseError_item event interceptor :: later) ->
  (forall w, instanceof_HttpResponse (event w) = false) ->
  fst (handleResponse this response0 request0 m) = Normal response0.
Proof.
  intros Hitems Hev. rewrite handleResponse_eval.
  rewrite (elements_lookup _ _ _ Hitems). simpl.
  destruct (response_chain response0 request0 later (world m)) as [acc w1].
  rewrite (responseError_skips_handler_aux event interceptor acc request0 w1
             (Hev w1)).
  reflexivity.
Qed.

(** X8. With no interceptor that has a [request] function,
    [handleRequest] returns the request it was given; with none that has a
    [response] function, [handleResponse] returns the response it was
    given; no callback runs. *)
Theorem nothing_registered_nothing_changes (this : RebirthHttpProvider)
    (req : HttpRequest) (response0 : HttpEvent)
    (request0 : option HttpRequest) m items :
  arrays m !! interceptors this = Some items ->
  (Forall (fun i => request i = None) items ->
   fst (handleRequest this req m) = Normal req /\
   world (snd (handleRequest this req m)) = world m) /\
  (Forall (fun i => response i = None) items ->
   fst (handleResponse this response0 request0 m) = Normal response0 /\
   world (snd (handleResponse this response0 request0 m)) = world m).
Proof.
  intros Hitems. split; intros Hnone.
  - rewrite handleRequest_eval, (elements_lookup _ _ _ Hitems).
    assert (H : forall acc w, request_chain items acc w = (acc, w)).
    { clear Hitems. induction Hnone as [|i rest Hi _ IH]; intros acc w; simpl.
      - reflexivity.
      - rewrite Hi. apply IH. }
    rewrite H. split; reflexivity.
  - rewrite handleResponse_eval, (elements_lookup _ _ _ Hitems).
    assert (H : forall w, response_chain response0 request0 items w
                          = (response0, w)).
    { clear Hitems. induction Hnone as [|i rest Hi _ IH]; intros w; simpl.
      - reflexivity.
      - rewrite IH, Hi. reflexivity. }
    rewrite H. split; reflexivity.
Qed.

End Wrappers.

Lemma added_response_interceptors_compose_witness :
  let fns := [ (fun (e : HttpEvent) (w : Examples.Trace) =>
                  (Some (HttpUserEvent (VStr "first")), w ++ ["first"]));
               Examples.record_error "second" ] in
  let m := {| arrays := {[ 1%positive := List.map response_item fns ]};
              world := [] |} in
  arrays m !! interceptors Examples.sample_provider
    = Some (List.map response_item fns) /\
  fst (handleResponse Examples.sample_provider (Examples.sample_response 200)
         None m) =
    Normal (fst (compose_all (rev fns) (Examples.sample_response 200, world m))) /\
  world (snd (handleResponse Examples.sample_provider
                (Examples.sample_response 200) None m)) =
    snd (compose_all (rev fns) (Examples.sample_response 200, world m)).
Proof.
  intros fns m. split; [reflexivity|].
  apply (added_response_interceptors_compose Examples.sample_provider fns
           (Examples.sample_response 200) None m).
  reflexivity.
Defined.

(** In that chain the function that returns nothing keeps the
    accumulator: the result is what [first] made of it. *)
Example added_response_interceptors_run :
  compose_all
    (rev [ (fun (e : HttpEvent) (w : Examples.Trace) =>
              (Some (HttpUserEvent (VStr "first")), w ++ ["first"]));
           Examples.record_error "second" ])
    (Examples.sample_response 200, [])
  = (HttpUserEvent (VStr "first"), ["second"; "first"]).
Proof. reflexivity. Qed.

Lemma error_interceptor_first_restores_witness :
  let event := fun _ : Examples.Trace => NoEvent in
  let later := [ {| request := None;
                    response := Some (Examples.tag_response "b") |} ] in
  let m := {| arrays :=
                {[ 1%positive :=
                     responseError_item event (Examples.record_error "onError")
                     :: later ]};
              world := [] |} in
  arrays m !! interceptors Examples.sample_provider
    = Some (responseError_item event (Examples.record_error "onError")
            :: later) /\
  (forall w, instanceof_HttpResponse (event w) = false) /\
  fst (handleResponse Examples.sample_provider (Examples.sample_response 200)
         None m) = Normal (Examples.sample_response 200).
Proof.
  intros event later m.
  assert (Hev : forall w, instanceof_HttpResponse (event w) = false)
    by (intros w; reflexivity).
  split; [reflexivity|]. split; [exact Hev|].
  exact (error_interceptor_first_restores event Examples.sample_provider
           (Examples.record_error "onError") (Examples.sample_response 200)
           None m later eq_refl Hev).
Defined.

Lemma nothing_registered_nothing_changes_witness :
  let m : Store Examples.Trace :=
    {| arrays := {[ 1%positive := [ {| request := None; response := None |} ] ]};
       world := [] |} in
  fst (handleRequest Examples.sample_provider (Examples.sample_request "/x") m)
    = Normal (Examples.sample_request "/x") /\
  fst (handleResponse Examples.sample_provider (Examples.sample_response 200)
         None m) = Normal (Examples.sample_response 200).
Proof.
  intros m.
  destruct (nothing_registered_nothing_changes Examples.sample_provider
              (Examples.sample_request "/x") (Examples.sample_response 200)
              None m [ {| request := None; response := None |} ] eq_refl)
    as [Hreq Hres].
  split.
  - apply Hreq. repeat constructor.
  - apply Hres. repeat constructor.
Defined.

(** ** The url rewriting of [baseUrl] *)

Lemma prefix_cons (c d : ascii) (p s : string) :
  String.prefix (String c p) (String d s) =
  if ascii_dec c d then String.prefix p s else false.
Proof. reflexivity. Qed.

Lemma prefix_split (p s : string) :
  String.prefix p s = true -> exists t, s = (p ++ t)%string.
Proof.
  revert s. induction p as [|c p IH]; intros s H.
  - exists s. reflexivity.
  - destruct s as [|d s]; [discriminate|].
    rewrite prefix_cons in H.
    destruct (ascii_dec c d) as [->|]; [|discriminate].
    destruct (IH s H) as [t ->]. exists t. reflexivity.
Qed.

Lemma prefix_app (p t : string) : String.prefix p (p ++ t) = true.
Proof.
  induction p as [|c p IH]; [destruct t; reflexivity|].
  change (String.prefix (String c p) (String c (p ++ t)) = true).
  rewrite prefix_cons.
  destruct (ascii_dec c c); [exact IH | congruence].
Qed.

(** Removing a trailing slash keeps an [http:] or [https:] prefix, also
    with something put after. *)
Lemma http_prefix_kept (h rest : string) :
  test_http_prefix h = true ->
  test_http_prefix (replace_trailing_slash h ++ rest) = true.
Proof.
  unfold test_http_prefix. intros H. apply orb_true_iff in H as [H|H];
    apply prefix_split in H as [t ->]; apply orb_true_iff; [left|right].
  - destruct t as [|c t]; [apply (prefix_app "http:" rest)|].
    change (String.prefix "http:"
              ("http:" ++ (replace_trailing_slash (String c t) ++ rest)) = true).
    apply prefix_app.
  - destruct t as [|c t]; [apply (prefix_app "https:" rest)|].
    change (String.prefix "https:"
              ("https:" ++ (replace_trailing_slash (String c t) ++ rest)) = true).
    apply prefix_app.
Qed.

Section BaseUrl.

Context {W : Type}.

(** The function registered by [baseUrl] never returns nothing, and
    the request it returns has the method, the headers, the query
    parameters and the body of the request it was given. *)
Lemma baseUrl_touches_url_only (host : Captured W string)
    (excludes : list RegExp) (request0 : HttpRequest) (w : W) :
  exists request',
    fst (baseUrl_request host excludes request0 w) = Some request' /\
    method request' = method request0 /\
    headers request' = headers request0 /\
    params request' = params request0 /\
    body request' = body request0.
Proof.
  unfold baseUrl_request.
  destruct (test_http_prefix (url request0)).
  - exists request0. repeat split.
  - destruct (existsb (fun t => t (url request0)) excludes).
    + exists request0. repeat split.
    + eexists. repeat split.
Qed.

(** X9. For a host that does not end in two slashes, the captured host
    is the host given to [baseUrl] or that host less its trailing slash,
    before and after every request; every rewritten request then gets the
    host less its trailing slash, a slash, and the url less its leading
    slash. *)
Theorem baseUrl_settled_host (host : Captured W string) (h : string)
    (excludes : list RegExp) (request0 : HttpRequest) (w : W) :
  (forall a w0, read host (assign host a w0) = a) ->
  replace_trailing_slash (replace_trailing_slash h) = replace_trailing_slash h ->
  read host w = h \/ read host w = replace_trailing_slash h ->
  (read host (snd (baseUrl_request host excludes request0 w)) = h \/
   read host (snd (baseUrl_request host excludes request0 w))
     = replace_trailing_slash h) /\
  (test_http_prefix (url request0) = false ->
   existsb (fun t => t (url request0)) excludes = false ->
   fst (baseUrl_request host excludes request0 w) =
   Some (clone_url request0
           (replace_trailing_slash h ++ "/" ++
            replace_leading_slash (url request0)))).
Proof.
  intros Hcell Hstable Hinv.
  assert (Hstrip : replace_trailing_slash (read host w)
                   = replace_trailing_slash h).
  { destruct Hinv as [->| ->]; [reflexivity | exact Hstable]. }
  split.
  - unfold baseUrl_request.
    destruct (test_http_prefix (url request0)); [exact Hinv|].
    destruct (existsb (fun t => t (url request0)) excludes); [exact Hinv|].
    simpl. rewrite Hcell, Hstrip. right. reflexivity.
  - intros Habs Hexc.
    rewrite (baseUrl_request_relative host excludes request0 w Hcell Habs Hexc).
    simpl. rewrite Hstrip. reflexivity.
Qed.

(** X10. When the captured host begins with [http:] or [https:], a
    rewritten url begins with it too, and no function registered by
    [baseUrl] rewrites that request a second time. *)
Theorem baseUrl_result_is_final (host : Captured W string)
    (excludes : list RegExp) (request0 : HttpRequest) (w : W) :
  (forall a w0, read host (assign host a w0) = a) ->
  test_http_prefix (read host w) = true ->
  test_http_prefix (url request0) = false ->
  existsb (fun t => t (url request0)) excludes = false ->
  exists request',
    fst (baseUrl_request host excludes request0 w) = Some request' /\
    test_http_prefix (url request') = true /\
    forall (host2 : Captured W string) (excludes2 : list RegExp) (w2 : W),
      baseUrl_request host2 excludes2 request' w2 = (Some request', w2).
Proof.
  intros Hcell Hhost Habs Hexc.
  rewrite (baseUrl_request_relative host excludes request0 w Hcell Habs Hexc).
  eexists. split; [reflexivity|].
  assert (Hfinal : test_http_prefix
            (replace_trailing_slash (read host w) ++ "/" ++
             replace_leading_slash (url request0)) = true)
    by (apply http_prefix_kept; exact Hhost).
  split; [exact Hfinal|].
  intros host2 excludes2 w2. apply baseUrl_request_absolute. exact Hfinal.
Qed.

End BaseUrl.

Lemma baseUrl_settled_host_witness :
  (forall a w0, read Examples.host_cell (assign Examples.host_cell a w0) = a) /\
  replace_trailing_slash (replace_trailing_slash "http://api.test/")
    = replace_trailing_slash "http://api.test/" /\
  fst (baseUrl_request Examples.host_cell [] (Examples.sample_request "/users")
         "http://api.test/") =
  Some (clone_url (Examples.sample_request "/users")
          (replace_trailing_slash "http://api.test/" ++ "/" ++
           replace_leading_slash (url (Examples.sample_request "/users")))).
Proof.
  assert (Hcell : forall a w0,
            read Examples.host_cell (assign Examples.host_cell a w0) = a)
    by reflexivity.
  split; [exact Hcell|]. split; [reflexivity|].
  apply (baseUrl_settled_host Examples.host_cell "http://api.test/" []
           (Examples.sample_request "/users") "http://api.test/" Hcell
           eq_refl (or_introl eq_refl)); reflexivity.
Defined.

Lemma baseUrl_result_is_final_witness :
  test_http_prefix (read Examples.host_cell "https://api.test") = true /\
  exists request',
    fst (baseUrl_request Examples.host_cell [] (Examples.sample_request "users")
           "https://api.test") = Some request' /\
    test_http_prefix (url request') = true /\
    forall (host2 : Captured string string) (excludes2 : list RegExp)
           (w2 : string),
      baseUrl_request host2 excludes2 request' w2 = (Some request', w2).
Proof.
  split; [reflexivity|].
  apply (baseUrl_result_is_final Examples.host_cell []
           (Examples.sample_request "users") "https://api.test");
    reflexivity.
Defined.

(** ** The headers set by [headers(map)], name by name *)

Lemma setHeaders_lookup_key hs (h : HttpHeaders) (i : string) :
  header_values
    (fold_left (fun h '(name, value) => HttpHeaders_set h name value) hs h)
    !! i =
  match last_set_key hs i with
  | Some v => Some v
  | None => header_values h !! i
  end.
Proof.
  revert h. induction hs as [|[k v] rest IH]; intros h; simpl.
  - reflexivity.
  - rewrite IH. destruct (last_set_key rest i) as [v'|]; [reflexivity|].
    unfold HttpHeaders_set.
    destruct (String.eqb (toLowerCase k) i) eqn:Hk.
    + apply String.eqb_eq in Hk as <-.
      destruct v as [|x v]; [reflexivity|]. simpl. apply lookup_insert_eq.
    + apply String.eqb_neq in Hk.
      destruct v as [|x v]; [reflexivity|]. simpl.
      apply lookup_insert_ne. exact Hk.
Qed.

(** X11. After the function registered by [headers(map)], every header
    name has the value of the last entry of [map] for that name (names
    compared without regard to case, entries with no value skipped), and
    the value it had on the request when [map] has no such entry. *)
Theorem headers_request_by_name {W} (hs : list (string * list string))
    (request0 : HttpRequest) (w : W) (name : string) :
  exists request',
    headers_request hs request0 w = (Some request', w) /\
    HttpHeaders_getAll (headers request') name =
    match last_set hs name with
    | Some v => Some v
    | None => HttpHeaders_getAll (headers request0) name
    end.
Proof.
  exists (clone_setHeaders request0 hs). split; [reflexivity|].
  unfold HttpHeaders_getAll, last_set. simpl. apply setHeaders_lookup_key.
Qed.


(** A header object whose entries for a name have no value sets nothing
    for it. *)
Lemma last_set_key_all_empty hs (i : string) :
  (forall k v, In (k, v) hs -> toLowerCase k = i -> v = []) ->
  last_set_key hs i = None.
Proof.
  induction hs as [|[k0 v0] rest IH]; intros Hempty; simpl; [reflexivity|].
  rewrite IH by (intros k v Hin; apply Hempty; right; exact Hin).
  destruct (String.eqb (toLowerCase k0) i) eqn:Hk; [|reflexivity].
  apply String.eqb_eq in Hk.
  rewrite (Hempty k0 v0 (or_introl eq_refl) Hk). reflexivity.
Qed.

(** The entry with a value after which every entry for the name has none
    is the one that counts. *)
Lemma last_set_key_at (before after : list (string * list string))
    (k i : string) (v : list string) :
  toLowerCase k = i -> v <> [] ->
  (forall k' v', In (k', v') after -> toLowerCase k' = i -> v' = []) ->
  last_set_key (before ++ (k, v) :: after) i = Some v.
Proof.
  intros Hk Hv Hafter.
  induction before as [|[k0 v0] before IH]; simpl.
  - rewrite (last_set_key_all_empty after i Hafter).
    apply String.eqb_eq in Hk. rewrite Hk.
    destruct v; [congruence | reflexivity].
  - rewrite IH. reflexivity.
Qed.

(** C5, as the code has it.  For every header map, the function
    registered by [headers(map)] returns the request with the headers of
    the map set on it.  A header under a name that the map does not
    mention is kept, names being compared without regard to case.  A name
    for which the map has an entry with a value gets the value of the last
    such entry and nothing else, whatever the request carried under that
    name: the entry is replaced, there are not two.  A name for which the
    map has entries without a value only keeps what it had. *)
Theorem headers_request_last_entry_replaces {W}
    (hs : list (string * list string)) (request0 : HttpRequest) (w : W) :
  exists request',
    headers_request hs request0 w = (Some request', w) /\
    url request' = url request0 /\
    (forall name,
       ~ In (toLowerCase name) (lower_names hs) ->
       HttpHeaders_getAll (headers request') name =
       HttpHeaders_getAll (headers request0) name) /\
    (forall name before k v after,
       hs = before ++ (k, v) :: after ->
       toLowerCase k = toLowerCase name ->
       v <> [] ->
       (forall k' v', In (k', v') after ->
                      toLowerCase k' = toLowerCase name -> v' = []) ->
       HttpHeaders_getAll (headers request') name = Some v) /\
    (forall name,
       (forall k v, In (k, v) hs -> toLowerCase k = toLowerCase name -> v = []) ->
       HttpHeaders_getAll (headers request') name =
       HttpHeaders_getAll (headers request0) name).
Proof.
  exists (clone_setHeaders request0 hs).
  split; [reflexivity|]. split; [reflexivity|].
  assert (Hlookup : forall name,
    HttpHeaders_getAll (headers (clone_setHeaders request0 hs)) name =
    match last_set_key hs (toLowerCase name) with
    | Some v => Some v
    | None => HttpHeaders_getAll (headers request0) name
    end).
  { intros name. unfold HttpHeaders_getAll. simpl. apply setHeaders_lookup_key. }
  split; [|split].
  - intros name Hnot. rewrite Hlookup, last_set_key_all_empty; [reflexivity|].
    intros k v Hin Hk. exfalso. apply Hnot. rewrite <- Hk.
    unfold lower_names. apply (in_map (fun e => toLowerCase (fst e)) hs (k, v)).
    exact Hin.
  - intros name before k v after Hhs Hk Hv Hafter.
    rewrite Hlookup, Hhs, (last_set_key_at before after k _ v Hk Hv Hafter).
    reflexivity.
  - intros name Hempty.
    rewrite Hlookup, (last_set_key_all_empty hs _ Hempty). reflexivity.
Qed.

Lemma headers_request_last_entry_replaces_witness :
  exists request',
    headers_request [("X-A", ["1"]); ("Authorization", ["X"]); ("x-a", ["2"]);
                     ("X-B", [])]
      Examples.authorized_request tt = (Some request', tt) /\
    HttpHeaders_getAll (headers request') "Authorization" = Some ["X"] /\
    HttpHeaders_getAll (headers request') "X-A" = Some ["2"] /\
    HttpHeaders_getAll (headers request') "Accept" =
      HttpHeaders_getAll (headers Examples.authorized_request) "Accept" /\
    HttpHeaders_getAll (headers request') "X-B" =
      HttpHeaders_getAll (headers Examples.authorized_request) "X-B".
Proof.
  destruct (headers_request_last_entry_replaces
              [("X-A", ["1"]); ("Authorization", ["X"]); ("x-a", ["2"]);
               ("X-B", [])]
              Examples.authorized_request tt)
    as (request' & Heq & _ & Hother & Hlast & Hempty).
  exists request'. split; [exact Heq|]. split; [|split; [|split]].
  - apply (Hlast "Authorization" [("X-A", ["1"])] "Authorization" ["X"]
             [("x-a", ["2"]); ("X-B", [])]);
      [reflexivity | reflexivity | discriminate |].
    intros k' v' [[= <- <-]|[[= <- <-]|[]]] Hk; [discriminate Hk | reflexivity].
  - apply (Hlast "X-A" [("X-A", ["1"]); ("Authorization", ["X"])] "x-a" ["2"]
             [("X-B", [])]);
      [reflexivity | reflexivity | discriminate |].
    intros k' v' [[= <- <-]|[]] Hk. reflexivity.
  - apply Hother. simpl. intros [H|[H|[H|[H|[]]]]]; discriminate H.
  - apply Hempty.
    intros k v [[= <- <-]|[[= <- <-]|[[= <- <-]|[[= <- <-]|[]]]]] Hk;
      try discriminate Hk; reflexivity.
Defined.

(** The request carried [X-A: old]; a map entry without a value leaves it,
    and of two entries for one name the later is the one that stays. *)
Example headers_request_empty_and_repeated :
  let request0 :=
    {| method := "GET"; url := "/users";
       headers := HttpHeaders_set HttpHeaders_empty "X-A" ["old"];
       params := HttpParams_new; body := VNull |} in
  HttpHeaders_getAll
    (headers (clone_setHeaders request0 [("X-A", [])])) "X-A" = Some ["old"] /\
  HttpHeaders_getAll
    (headers (clone_setHeaders request0 [("X-A", ["1"]); ("x-a", ["2"])]))
    "X-A" = Some ["2"].
Proof. vm_compute. split; reflexivity. Qed.

(** ** The url of a call *)

Lemma string_app_assoc (a b c : string) :
  ((a ++ b) ++ c = a ++ (b ++ c))%string.
Proof.
  induction a as [|x a IH]; [reflexivity|].
  change (String x ((a ++ b) ++ c) = String x (a ++ (b ++ c))).
  rewrite IH. reflexivity.
Qed.

Lemma replace_trailing_slash_app (b : string) :
  replace_trailing_slash (b ++ "/") = b.
Proof.
  induction b as [|c b IH]; [reflexivity|].
  destruct b as [|d b]; [reflexivity|].
  change (String c (replace_trailing_slash (String d b ++ "/"))
          = String c (String d b)).
  rewrite IH. reflexivity.
Qed.

(** X13. A slash at the end of the base url and a slash at the start of
    the url template make no difference: the url of the call is the base,
    one slash, and the template. *)
Theorem requestUrl_slashes (b u : string) :
  b <> "" ->
  replace_trailing_slash b = b ->
  replace_leading_slash u = u ->
  requestUrl b u = (b ++ "/" ++ u)%string /\
  requestUrl (b ++ "/") u = (b ++ "/" ++ u)%string /\
  requestUrl b ("/" ++ u) = (b ++ "/" ++ u)%string /\
  requestUrl (b ++ "/") ("/" ++ u) = (b ++ "/" ++ u)%string.
Proof.
  intros Hb Hbase Hurl.
  assert (Hne : String.eqb b "" = false) by (apply String.eqb_neq; exact Hb).
  assert (Hne' : String.eqb (b ++ "/") "" = false).
  { apply String.eqb_neq. destruct b; discriminate. }
  unfold requestUrl.
  rewrite Hne, Hne', replace_trailing_slash_app, Hbase, Hurl.
  change (replace_leading_slash ("/" ++ u)) with u.
  cbn [negb]. rewrite !string_app_assoc. repeat split.
Qed.

Lemma requestUrl_slashes_witness :
  "http://x" <> "" /\
  requestUrl "http://x" "items" = "http://x/items" /\
  requestUrl "http://x/" "items" = "http://x/items" /\
  requestUrl "http://x" "/items" = "http://x/items" /\
  requestUrl "http://x/" "/items" = "http://x/items".
Proof.
  assert (Hne : "http://x" <> "") by discriminate.
  split; [exact Hne|].
  exact (requestUrl_slashes "http://x" "items" Hne eq_refl eq_refl).
Defined.

(** X14. A call on a class whose base url begins with [http:] or
    [https:] has a url that begins with it, and the function registered by
    [baseUrl] on the provider leaves such a request as it is: the base url
    of the class wins over the host of the provider. *)
Theorem class_base_url_wins {W} (base resUrl : string)
    (host : Captured W string) (excludes : list RegExp)
    (request0 : HttpRequest) (w : W) :
  test_http_prefix base = true ->
  url request0 = requestUrl base resUrl ->
  baseUrl_request host excludes request0 w = (Some request0, w).
Proof.
  intros Hbase Hurl. apply baseUrl_request_absolute. rewrite Hurl.
  unfold requestUrl.
  assert (Hne : String.eqb base "" = false).
  { apply String.eqb_neq. intros ->. discriminate Hbase. }
  rewrite Hne. cbn [negb]. rewrite string_app_assoc.
  apply http_prefix_kept. exact Hbase.
Qed.

Lemma class_base_url_wins_witness :
  test_http_prefix "http://x/" = true /\
  baseUrl_request Examples.host_cell []
    (Examples.sample_request (requestUrl "http://x/" "/items/7"))
    "http://api.test"
  = (Some (Examples.sample_request (requestUrl "http://x/" "/items/7")),
     "http://api.test").
Proof.
  split; [reflexivity|].
  apply (class_base_url_wins "http://x/" "/items/7" Examples.host_cell []
           (Examples.sample_request (requestUrl "http://x/" "/items/7"))
           "http://api.test"); reflexivity.
Defined.

(** ** The path of a call *)

Lemma replace_first_eq (pattern replacement s : string) :
  replace_first pattern replacement s =
  if String.prefix pattern s
  then (replacement ++ skip (String.length pattern) s)%string
  else
    match s with
    | EmptyString => EmptyString
    | String c rest => String c (replace_first pattern replacement rest)
    end.
Proof. destruct s; reflexivity. Qed.

Lemma occurs_eq (pattern s : string) :
  occurs pattern s =
  String.prefix pattern s ||
  match s with
  | EmptyString => false
  | String _ rest => occurs pattern rest
  end.
Proof. destruct s; reflexivity. Qed.

Lemma replace_first_absent (pattern replacement s : string) :
  occurs pattern s = false ->
  replace_first pattern replacement s = s.
Proof.
  induction s as [|c rest IH]; intros H;
    rewrite occurs_eq in H; apply orb_false_iff in H as [Hpre Hrest];
    rewrite replace_first_eq, Hpre.
  - reflexivity.
  - rewrite (IH Hrest). reflexivity.
Qed.

Lemma skip_app (p s : string) : skip (String.length p) (p ++ s) = s.
Proof. induction p as [|c p IH]; [reflexivity | exact IH]. Qed.

Lemma replace_first_at (k replacement pre post : string) :
  occurs ":" pre = false ->
  replace_first (":" ++ k) replacement (pre ++ (":" ++ k) ++ post) =
  (pre ++ replacement ++ post)%string.
Proof.
  induction pre as [|c pre IH]; intros H.
  - change ("" ++ (":" ++ k) ++ post)%string with ((":" ++ k) ++ post)%string.
    rewrite replace_first_eq, prefix_app, skip_app. reflexivity.
  - rewrite occurs_eq in H. apply orb_false_iff in H as [Hc Hpre].
    change (String.prefix ":" (String c pre))
      with (if ascii_dec ":" c then String.prefix "" pre else false) in Hc.
    destruct (ascii_dec ":" c) as [Heq|Hne]; [destruct pre; discriminate Hc|].
    change (String c pre ++ (":" ++ k) ++ post)%string
      with (String c (pre ++ (":" ++ k) ++ post)).
    rewrite replace_first_eq.
    change (String.prefix (":" ++ k) (String c (pre ++ (":" ++ k) ++ post)))
      with (if ascii_dec ":" c
            then String.prefix k (pre ++ (":" ++ k) ++ post) else false).
    destruct (ascii_dec ":" c); [contradiction|].
    rewrite (IH Hpre). reflexivity.
Qed.

(** A byte that is escaped is written with two hexadecimal digits. *)
Lemma escaped_digits (c : ascii) :
  is_unreserved (hex_digit (nat_of_ascii c / 16)) = true /\
  is_unreserved (hex_digit (nat_of_ascii c mod 16)) = true.
Proof.
  destruct c as [[] [] [] [] [] [] [] []]; vm_compute; split; reflexivity.
Qed.

(** What [encodeURIComponent] returns is made of unreserved characters and
    percent signs. *)
Lemma encodeURIComponent_chars (s : string) (c : ascii) :
  In c (list_ascii_of_string (encodeURIComponent s)) ->
  is_unreserved c = true \/ c = "%"%char.
Proof.
  induction s as [|d s IH]; simpl; [tauto|].
  destruct (is_unreserved d) eqn:Hd; simpl.
  - intros [<-|Hin]; [left; exact Hd | exact (IH Hin)].
  - destruct (escaped_digits d) as [Hhi Hlo].
    intros [<-|[<-|[<-|Hin]]]; [right; reflexivity | left; exact Hhi
                               | left; exact Hlo | exact (IH Hin)].
Qed.

Section PathProofs.

Variable Date_toString : option Z -> string.

(** X15. A url template in which the token of no [Path] binding occurs
    comes out of the path block as it went in. *)
Theorem path_without_tokens (pPath : list ParamObj) (args : list JsValue)
    (url0 : string) :
  Forall (fun p => occurs (":" ++ key_text (key p)) url0 = false) pPath ->
  methodBuilder_path Date_toString (Some pPath) args url0 = url0.
Proof.
  intros Hnone. unfold methodBuilder_path.
  induction Hnone as [|p rest Hp _ IH]; simpl; [reflexivity|].
  unfold path_step at 2. rewrite (replace_first_absent _ _ _ Hp). exact IH.
Qed.

(** X16. In a template whose text before the token [:key] has no colon,
    a [Path] binding puts the encoded argument in the place of the token
    and leaves the text before and after it; what it puts there has no
    slash, question mark, hash, colon, ampersand, equals or dollar sign. *)
Theorem path_token_replaced (args : list JsValue) (p : ParamObj)
    (pre post : string) :
  occurs ":" pre = false ->
  exists v,
    path_step Date_toString args
      (pre ++ (":" ++ key_text (key p)) ++ post) p = (pre ++ v ++ post)%string /\
    v = encodeURIComponent
          (ToString Date_toString (arg args (parameterIndex p))) /\
    forall c, In c (list_ascii_of_string v) ->
      ~ In c ["/"; "?"; "#"; ":"; "&"; "="; "$"]%char.
Proof.
  intros Hpre. eexists. split; [|split; [reflexivity|]].
  - unfold path_step. apply replace_first_at. exact Hpre.
  - intros c Hc Hbad. apply encodeURIComponent_chars in Hc.
    simpl in Hbad.
    destruct Hbad as [<-|[<-|[<-|[<-|[<-|[<-|[<-|[]]]]]]]];
      destruct Hc as [Hc|Hc]; discriminate Hc.
Qed.

End PathProofs.

Lemma path_without_tokens_witness :
  Forall (fun p => occurs (":" ++ key_text (key p)) "/users/:name" = false)
    [{| key := Some "id"; parameterIndex := 0 |}] /\
  methodBuilder_path (fun _ => "")
    (Some [{| key := Some "id"; parameterIndex := 0 |}]) [VNum 42]
    "/users/:name" = "/users/:name".
Proof.
  assert (H : Forall
            (fun p => occurs (":" ++ key_text (key p)) "/users/:name" = false)
            [{| key := Some "id"; parameterIndex := 0 |}])
    by (repeat constructor).
  split; [exact H|].
  exact (path_without_tokens (fun _ => "")
           [{| key := Some "id"; parameterIndex := 0 |}] [VNum 42]
           "/users/:name" H).
Defined.

Lemma path_token_replaced_witness :
  occurs ":" "/users/" = false /\
  exists v,
    path_step (fun _ => "") [VStr "a/b c"]
      ("/users/" ++ (":" ++ key_text (Some "id")) ++ "/posts")
      {| key := Some "id"; parameterIndex := 0 |}
    = ("/users/" ++ v ++ "/posts")%string /\
    v = encodeURIComponent (ToString (fun _ => "") (arg [VStr "a/b c"] 0)) /\
    forall c, In c (list_ascii_of_string v) ->
      ~ In c ["/"; "?"; "#"; ":"; "&"; "="; "$"]%char.
Proof.
  split; [reflexivity|].
  apply (path_token_replaced (fun _ => "") [VStr "a/b c"]
           {| key := Some "id"; parameterIndex := 0 |} "/users/" "/posts").
  reflexivity.
Defined.

(** The path block, run: the first occurrence of a token alone is
    replaced, an argument is escaped, and a key that begins another token
    eats into it. *)
Example path_block_runs :
  methodBuilder_path (fun _ => "")
    (Some [{| key := Some "id"; parameterIndex := 0 |}]) [VStr "a/b c"]
    "/users/:id/posts/:id" = "/users/a%2Fb%20c/posts/:id" /\
  methodBuilder_path (fun _ => "")
    (Some [{| key := Some "id"; parameterIndex := 0 |}]) [VNum 42]
    "/users/:idx" = "/users/42x".
Proof. split; reflexivity. Qed.

(** ** The query of a call, binding by binding *)

Lemma entries_set_fresh param values l :
  ~ In param (List.map fst l) ->
  entries_set param values l = l ++ [(param, values)].
Proof.
  induction l as [|[k vs] rest IH]; simpl; intros Hnot.
  - reflexivity.
  - rewrite decide_False by (intros ->; apply Hnot; left; reflexivity).
    rewrite IH by (intros Hin; apply Hnot; right; exact Hin).
    reflexivity.
Qed.

Lemma entries_set_length param values l :
  length (entries_set param values l) <= S (length l).
Proof.
  induction l as [|[k vs] rest IH]; simpl; [lia|].
  destruct (decide (k = param)); simpl; lia.
Qed.

Section QueryOrder.

Variable Date_toString : option Z -> string.

Lemma query_step_scalar args ps p :
  plain_object (arg args (parameterIndex p)) = false ->
  query_step Date_toString args ps p =
  HttpParams_set ps (key p)
    (query_value Date_toString (arg args (parameterIndex p))).
Proof.
  intros Hplain. unfold query_step, query_value.
  destruct (arg args (parameterIndex p)); try reflexivity.
  discriminate Hplain.
Qed.

Lemma query_steps_in_order args (l : list ParamObj) (acc : HttpParams) :
  Forall (fun p => plain_object (arg args (parameterIndex p)) = false) l ->
  List.NoDup (List.map fst (param_entries acc) ++ List.map key l) ->
  param_entries (fold_left (query_step Date_toString args) l acc) =
  param_entries acc ++
  List.map (fun p => (key p,
                      [query_value Date_toString
                         (arg args (parameterIndex p))])) l.
Proof.
  intros Hscalar. revert acc.
  induction Hscalar as [|p rest Hp _ IH]; intros acc Hnd; simpl.
  - rewrite app_nil_r. reflexivity.
  - rewrite (query_step_scalar args acc p Hp).
    assert (Hfresh : ~ In (key p) (List.map fst (param_entries acc))).
    { intros Hin. apply NoDup_remove_2 in Hnd. apply Hnd.
      apply in_or_app. left. exact Hin. }
    rewrite IH.
    + unfold HttpParams_set. simpl.
      rewrite (entries_set_fresh _ _ _ Hfresh), <- app_assoc. reflexivity.
    + unfold HttpParams_set. simpl.
      rewrite (entries_set_fresh _ _ _ Hfresh), map_app. simpl.
      rewrite <- app_assoc. exact Hnd.
Qed.

(** X17. When no argument is a plain object and the bindings whose
    argument is not [undefined] have different keys, the query has one
    entry for each of those bindings, in the order of the bindings, with
    the value of the argument: the time of a date, the joined elements of
    an array, the empty string for [null], the string form otherwise. *)
Theorem query_in_binding_order (pQuery : list ParamObj) (args : list JsValue) :
  Forall (fun p => plain_object (arg args (parameterIndex p)) = false) pQuery ->
  List.NoDup
    (List.map key
       (List.filter (fun p => negb (isUndefined (arg args (parameterIndex p))))
                    pQuery)) ->
  param_entries (methodBuilder_params Date_toString (Some pQuery) args) =
  List.map (fun p => (key p,
                      [query_value Date_toString
                         (arg args (parameterIndex p))]))
    (List.filter (fun p => negb (isUndefined (arg args (parameterIndex p))))
                 pQuery).
Proof.
  intros Hscalar Hnd. unfold methodBuilder_params.
  rewrite query_steps_in_order.
  - reflexivity.
  - apply List.Forall_forall. intros p Hp. apply filter_In in Hp as [Hp _].
    rewrite List.Forall_forall in Hscalar. exact (Hscalar p Hp).
  - exact Hnd.
Qed.

Lemma query_step_length args ps p :
  length (param_entries (query_step Date_toString args ps p))
  <= S (length (param_entries ps)).
Proof.
  destruct (plain_object (arg args (parameterIndex p))) eqn:Hplain.
  - destruct (arg args (parameterIndex p)) as [| | | | | | |props] eqn:Harg;
      try discriminate Hplain.
    destruct props as [|x l] using rev_ind.
    + rewrite (query_step_no_props Date_toString args ps p Harg). lia.
    + destruct x as [k v].
      rewrite (query_step_object Date_toString args ps p l k v Harg).
      apply entries_set_length.
  - rewrite (query_step_scalar args ps p Hplain). apply entries_set_length.
Qed.

(** X18. The query never has more entries than there are [Query]
    bindings whose argument is not [undefined]: a binding adds one entry
    at most, also when its argument is an object with several keys. *)
Theorem query_entries_bounded (pQuery : list ParamObj) (args : list JsValue) :
  length (param_entries (methodBuilder_params Date_toString (Some pQuery) args))
  <= length (List.filter
               (fun p => negb (isUndefined (arg args (parameterIndex p))))
               pQuery).
Proof.
  unfold methodBuilder_params.
  assert (H : forall l acc,
    length (param_entries (fold_left (query_step Date_toString args) l acc))
    <= length (param_entries acc) + length l).
  { induction l as [|p rest IH]; intros acc; simpl; [lia|].
    specialize (IH (query_step Date_toString args acc p)).
    pose proof (query_step_length args acc p). lia. }
  specialize (H (List.filter
                   (fun p => negb (isUndefined (arg args (parameterIndex p))))
                   pQuery) HttpParams_new).
  simpl in H. exact H.
Qed.

End QueryOrder.

Lemma query_in_binding_order_witness :
  let pQuery := [ {| key := Some "since"; parameterIndex := 0 |};
                  {| key := Some "gone"; parameterIndex := 5 |};
                  {| key := Some "ids"; parameterIndex := 1 |} ] in
  let args := [VDate (Some 1500000000000%Z); VArray [VNum 1; VNum 2]] in
  param_entries (methodBuilder_params (fun _ => "") (Some pQuery) args) =
  List.map (fun p => (key p,
                      [query_value (fun _ => "") (arg args (parameterIndex p))]))
    (List.filter (fun p => negb (isUndefined (arg args (parameterIndex p))))
                 pQuery).
Proof.
  intros pQuery args.
  apply (query_in_binding_order (fun _ => "") pQuery args).
  - repeat constructor.
  - repeat constructor; simpl; intuition discriminate.
Defined.

(** ** RebirthHttpInterceptors *)

Section Intercept.

Context {W : Type}.

Implicit Types (m : Store W) (items : list (RebirthHttpInterceptor W)).

(** The worlds that the response interceptors leave, one event after the
    other. *)
Lemma do_handleResponse (this : RebirthHttpProvider) items
    (events : list HttpEvent) (source_failed : option Failure) m :
  arrays m !! interceptors this = Some items ->
  fst (Observable_do (fun e => handleResponse this e None) events
         source_failed m) =
    {| emitted := events; failed := source_failed |} /\
  world (snd (Observable_do (fun e => handleResponse this e None) events
                source_failed m)) =
    fold_left (fun w e => snd (response_fold e None items w)) events (world m).
Proof.
  revert m. induction events as [|e rest IH]; intros m Hitems; simpl.
  - split; reflexivity.
  - rewrite handleResponse_eval, (elements_lookup _ _ _ Hitems).
    rewrite response_chain_fold.
    match goal with
    | |- context [Observable_do _ rest source_failed ?m1] =>
        destruct (IH m1) as [Hout Hworld]
    end.
    { simpl. rewrite lookup_insert_ne by exact (fresh_array_other _ _ _ Hitems).
      exact Hitems. }
    destruct (Observable_do _ rest source_failed _) as [n m2].
    simpl in Hout, Hworld. subst n. simpl. split; [reflexivity|exact Hworld].
Qed.

(** X19. A subscriber of [intercept] receives the events and the error
    that [next.handle] gives for the request that [handleRequest] returns,
    unchanged: what the response interceptors return is dropped, they run
    for their effects, once for every event and not for the error. *)
Theorem intercept_passes_events (this : RebirthHttpProvider)
    (req : HttpRequest) (next : HttpRequest -> Notifications) m items :
  arrays m !! interceptors this = Some items ->
  fst (intercept this req next m) =
    Normal (next (fst (request_fold items req (world m)))) /\
  world (snd (intercept this req next m)) =
    fold_left (fun w e => snd (response_fold e None items w))
      (emitted (next (fst (request_fold items req (world m)))))
      (snd (request_fold items req (world m))).
Proof.
  intros Hitems. unfold intercept.
  rewrite handleRequest_eval, (elements_lookup _ _ _ Hitems).
  rewrite request_chain_fold.
  set (sent := fst (request_fold items req (world m))).
  match goal with
  | |- context [Observable_do _ _ _ ?m1] =>
      destruct (do_handleResponse this items (emitted (next sent))
                  (failed (next sent)) m1) as [Hout Hworld]
  end.
  { simpl. rewrite lookup_insert_ne by exact (fresh_array_other _ _ _ Hitems).
    exact Hitems. }
  destruct (Observable_do _ _ _ _) as [n m2].
  simpl in Hout, Hworld. subst n. simpl.
  split; [destruct (next sent); reflexivity | exact Hworld].
Qed.

End Intercept.

Lemma intercept_passes_events_witness :
  let next := fun r : HttpRequest =>
    {| emitted := [HttpSentEvent; Examples.sample_response 200];
       failed := None |} in
  arrays Examples.sample_store !! interceptors Examples.sample_provider
    = Some Examples.sample_items /\
  fst (intercept Examples.sample_provider (Examples.sample_request "/x") next
         Examples.sample_store) =
    Normal (next (fst (request_fold Examples.sample_items
                         (Examples.sample_request "/x")
                         (world Examples.sample_store)))).
Proof.
  intros next. split; [reflexivity|].
  apply (intercept_passes_events Examples.sample_provider
           (Examples.sample_request "/x") next Examples.sample_store
           Examples.sample_items).
  reflexivity.
Defined.

(** In the sample chain [b] answers every event with an event of its own;
    the subscriber still receives the events of the transport, and the
    callbacks have run for each of them. *)
Example intercept_runs :
  let next := fun r : HttpRequest =>
    {| emitted := [HttpSentEvent; Examples.sample_response 200];
       failed := Some (HttpErrorResponse 500) |} in
  fst (intercept Examples.sample_provider (Examples.sample_request "/x") next
         Examples.sample_store) =
    Normal {| emitted := [HttpSentEvent; Examples.sample_response 200];
              failed := Some (HttpErrorResponse 500) |} /\
  world (snd (intercept Examples.sample_provider (Examples.sample_request "/x")
                next Examples.sample_store)) =
    ["a"; "b"; "c"; "b"; "a"; "b"; "a"].
Proof. vm_compute. split; reflexivity. Qed.

(** ** The earlier variant, in general *)

Lemma legacy_falsy_left_out_witness :
  Legacy.truthy (arg [VStr "x"; VStr ""] 1) = false /\
  Legacy.methodBuilder_search (fun _ => "") (fun s => s)
    (Some ([{| key := Some "a"; parameterIndex := 0 |}] ++
           {| key := Some "q"; parameterIndex := 1 |} :: []))
    [VStr "x"; VStr ""] =
  Legacy.methodBuilder_search (fun _ => "") (fun s => s)
    (Some ([{| key := Some "a"; parameterIndex := 0 |}] ++ []))
    [VStr "x"; VStr ""].
Proof.
  split; [reflexivity|].
  apply (legacy_falsy_left_out (fun _ => "") (fun s => s) [VStr "x"; VStr ""]
           {| key := Some "q"; parameterIndex := 1 |}
           [{| key := Some "a"; parameterIndex := 0 |}] []).
  reflexivity.
Defined.



Section LegacyHeaders.

Variable Date_toString : option Z -> string.




End LegacyHeaders.


(** ** Providers and bodies *)

(** X22. A provider made while another one exists starts with no
    interceptor and has a list of its own: making it, and registering an
    interceptor on it, leaves the interceptors of the other provider as
    they were. *)
Theorem new_provider_is_separate {W} (this : RebirthHttpProvider)
    (i : RebirthHttpInterceptor W) (m : Store W)
    (items : list (RebirthHttpInterceptor W)) :
  arrays m !! getInterceptors this = Some items ->
  exists other m1,
    RebirthHttpProvider_new W m = (Normal other, m1) /\
    arrays m1 !! getInterceptors other = Some [] /\
    arrays m1 !! getInterceptors this = Some items /\
    arrays (snd (addInterceptor other i m1)) !! getInterceptors other
      = Some [i] /\
    arrays (snd (addInterceptor other i m1)) !! getInterceptors this
      = Some items.
Proof.
  unfold getInterceptors. intros Hitems.
  pose proof (fresh_array_other _ _ _ Hitems) as Hfresh.
  eexists. eexists. split; [reflexivity|]. simpl.
  unfold elements. simpl. rewrite !lookup_insert_eq. simpl.
  rewrite !lookup_insert_ne by exact Hfresh.
  repeat split; exact Hitems.
Qed.

Lemma new_provider_is_separate_witness :
  arrays Examples.sample_store !! getInterceptors Examples.sample_provider
    = Some Examples.sample_items /\
  exists other m1,
    RebirthHttpProvider_new Examples.Trace Examples.sample_store
      = (Normal other, m1) /\
    arrays m1 !! getInterceptors other = Some [] /\
    arrays m1 !! getInterceptors Examples.sample_provider
      = Some Examples.sample_items /\
    arrays (snd (addInterceptor other
                   (request_item (Examples.void_request "n")) m1))
      !! getInterceptors other
      = Some [request_item (Examples.void_request "n")] /\
    arrays (snd (addInterceptor other
                   (request_item (Examples.void_request "n")) m1))
      !! getInterceptors Examples.sample_provider
      = Some Examples.sample_items.
Proof.
  split; [reflexivity|].
  apply (new_provider_is_separate Examples.sample_provider
           (request_item (Examples.void_request "n")) Examples.sample_store
           Examples.sample_items).
  reflexivity.
Defined.

(** X23. When [Body] is declared on several parameters of a method, the
    call sends the argument of the parameter whose decorator ran first. *)
Theorem first_body_declaration_sent (propertyKey : string) (p : ParamObj)
    (rest : list ParamObj) (target : gmap string (list ParamObj))
    (args : list JsValue) :
  target !! metadataKey propertyKey "Body" = None ->
  methodBuilder_body
    (declare_all RBody propertyKey (p :: rest) target
       !! metadataKey propertyKey "Body") args
  = Normal (arg args (parameterIndex p)).
Proof.
  intros Hnone.
  pose proof (declarations_accumulate RBody propertyKey (p :: rest) target)
    as Hacc.
  cbn [role_name] in Hacc. rewrite Hnone in Hacc.
  destruct (declare_all RBody propertyKey (p :: rest) target
              !! metadataKey propertyKey "Body") as [l|];
    cbv [default from_option id] in Hacc; simpl in Hacc;
    [|discriminate Hacc].
  subst l. reflexivity.
Qed.

Lemma first_body_declaration_sent_witness :
  (∅ : gmap string (list ParamObj)) !! metadataKey "save" "Body" = None /\
  methodBuilder_body
    (declare_all RBody "save"
       [ {| key := Some "Body"; parameterIndex := 1 |};
         {| key := Some "Body"; parameterIndex := 0 |} ] ∅
       !! metadataKey "save" "Body") [VStr "first"; VStr "second"]
  = Normal (arg [VStr "first"; VStr "second"] 1).
Proof.
  split; [reflexivity|].
  apply (first_body_declaration_sent "save"
           {| key := Some "Body"; parameterIndex := 1 |}
           [{| key := Some "Body"; parameterIndex := 0 |}] ∅
           [VStr "first"; VStr "second"]).
  reflexivity.
Defined.
